(** * RCE-LLM empirical validation: scoring, aggregation and effect size

    A shallow embedding of the scoring function of [scripts/run_benchmarks.py]
    and of the aggregation stage of [scripts/statistical_analysis.py], with the
    properties the specification states about them.

    Number models.
    - In [validate_response] Python floats are IEEE 754 binary64 values, the
      primitive [float] of Rocq; [float(text)] is the correctly rounded
      decimal conversion.
    - Accuracies ([correct / total] on two counters) are exact rationals.
    - [math.sqrt] and [math.asin] are the real functions, with the domain
      errors Python raises; the rounding of binary64 is not modelled there.

    Text model.  A Python [str] is a [string] whose characters are the code
    points 0..255; [lower], [strip] and the regular expression class [\d]
    are Python's on that range. *)

From Stdlib Require Import Bool List ZArith NArith QArith Qminmax Lia Permutation.
From Stdlib Require Import Ascii String DecimalString.
From Stdlib Require Import Floats.
From Stdlib Require Import Reals Lra.
From Stdlib Require Lqa Qreals.
Import ListNotations.

Set Warnings "-inexact-float".

(** ** Exceptions and results *)

(** The exceptions met in the two scripts.  [KeyError] is what a lookup in a
    dict raises; the handler of [validate_response] does not list it. *)
Inductive py_exn : Type :=
| ValueError
| ZeroDivisionError
| KeyError.

Definition py_exn_eqb (a b : py_exn) : bool :=
  match a, b with
  | ValueError, ValueError => true
  | ZeroDivisionError, ZeroDivisionError => true
  | KeyError, KeyError => true
  | _, _ => false
  end.

Inductive result (A : Type) : Type :=
| Ok (a : A)
| Raise (e : py_exn).

Arguments Ok {A} a.
Arguments Raise {A} e.

Definition bind {A B : Type} (m : result A) (k : A -> result B) : result B :=
  match m with
  | Ok a => k a
  | Raise e => Raise e
  end.

Declare Scope py_scope.
Delimit Scope py_scope with py.
Notation "x <- m ;; k" := (bind m (fun x => k))
  (at level 61, m at next level, right associativity) : py_scope.

(** [try: body except (handled...): pass], followed by [rest].  The body
    either returns from the enclosing function ([Some v]) or falls through
    ([None]); an exception outside [handled] keeps propagating. *)
Definition try_except_pass {A : Type} (body : result (option A))
    (handled : list py_exn) (rest : result A) : result A :=
  match body with
  | Ok (Some v) => Ok v
  | Ok None => rest
  | Raise e => if existsb (py_exn_eqb e) handled then rest else Raise e
  end.

(** ** Python text *)

Module PyStr.

Local Open Scope N_scope.

Definition ord (c : ascii) : N := N_of_ascii c.

(** [str.isspace] on one character. *)
Definition isspace (c : ascii) : bool :=
  let n := ord c in
  ((9 <=? n) && (n <=? 13)) || ((28 <=? n) && (n <=? 32))
  || (n =? 133) || (n =? 160).

(** The class [\d]. *)
Definition isdigit (c : ascii) : bool :=
  let n := ord c in (48 <=? n) && (n <=? 57).

Definition lower_char (c : ascii) : ascii :=
  let n := ord c in
  if ((65 <=? n) && (n <=? 90))
     || ((192 <=? n) && (n <=? 222) && negb (n =? 215))
  then ascii_of_N (n + 32) else c.

Local Close Scope N_scope.
Local Open Scope string_scope.

(** [s.lower()] *)
Fixpoint lower (s : string) : string :=
  match s with
  | EmptyString => EmptyString
  | String c r => String (lower_char c) (lower r)
  end.

Fixpoint lstrip (s : string) : string :=
  match s with
  | EmptyString => EmptyString
  | String c r => if isspace c then lstrip r else s
  end.

Fixpoint rstrip (s : string) : string :=
  match s with
  | EmptyString => EmptyString
  | String c r =>
      match rstrip r with
      | EmptyString => if isspace c then EmptyString else String c EmptyString
      | r' => String c r'
      end
  end.

(** [s.strip()] *)
Definition strip (s : string) : string := rstrip (lstrip s).

(** [needle in hay] *)
Fixpoint contains (needle hay : string) : bool :=
  if prefix needle hay then true
  else match hay with
       | EmptyString => false
       | String _ r => contains needle r
       end.

(** The longest prefix of digits, and what follows it. *)
Fixpoint span_digits (s : string) : string * string :=
  match s with
  | String c r =>
      if isdigit c then let (d, t) := span_digits r in (String c d, t)
      else (EmptyString, s)
  | EmptyString => (EmptyString, EmptyString)
  end.

(** The character [ch] at the start of [s], if it is there, and what
    follows: the pattern [ch?]. *)
Definition optional_char (ch : ascii) (s : string) : string * string :=
  match s with
  | String c r => if Ascii.eqb c ch then (String ch EmptyString, r) else (EmptyString, s)
  | EmptyString => (EmptyString, s)
  end.

(** The pattern [-?\d+\.?\d*] anchored at the start of [s]: the text it
    matches, if any.  All its quantifiers are greedy, and giving a character
    back never turns a failure into a match. *)
Definition match_number (s : string) : option string :=
  let (sign, s1) := optional_char "-" s in
  let (int_part, s2) := span_digits s1 in
  match int_part with
  | EmptyString => None
  | _ =>
      let (dot, s3) := optional_char "." s2 in
      let (frac_part, _) := span_digits s3 in
      Some (sign ++ int_part ++ dot ++ frac_part)
  end.

(** [re.findall(r'-?\d+\.?\d*', s)]: the matches from left to right, none
    overlapping another.  [skip] counts the characters still inside the
    previous match. *)
Fixpoint findall_from (skip : nat) (s : string) : list string :=
  match s with
  | EmptyString => []
  | String _ r =>
      match skip with
      | S k => findall_from k r
      | O =>
          match match_number s with
          | Some tok => tok :: findall_from (String.length tok - 1) r
          | None => findall_from 0 r
          end
      end
  end.

Definition findall (s : string) : list string := findall_from 0 s.

End PyStr.

(** ** Python values and floats *)

Module PyFloat.

Local Open Scope Z_scope.

Definition digit_value (c : ascii) : Z := Z.of_N (N_of_ascii c) - 48.

(** The number a string of digits denotes, read after the digits [acc]. *)
Fixpoint digits_value (acc : Z) (s : string) : Z :=
  match s with
  | EmptyString => acc
  | String c r => digits_value (10 * acc + digit_value c) r
  end.

Fixpoint all_digits (s : string) : bool :=
  match s with
  | EmptyString => true
  | String c r => PyStr.isdigit c && all_digits r
  end.

(** The binary64 value nearest to [(-1)^neg * n / 10^k], ties to even. *)
Definition of_decimal (neg : bool) (n : Z) (k : nat) : float :=
  match n with
  | Zpos p =>
      SF2Prim (SFdiv prec emax (S754_finite neg p 0)
                 (S754_finite false (Z.to_pos (10 ^ Z.of_nat k)) 0))
  | _ => if neg then (-0)%float else 0%float
  end.

(** [float(tok)] on a text of the shape [-?\d+\.?\d*], the only shape
    [validate_response] passes to it; any other text is answered with
    [ValueError] here. *)
Definition float_of_numeral (tok : string) : result float :=
  let (sign, s1) := PyStr.optional_char "-" tok in
  let (int_part, s2) := PyStr.span_digits s1 in
  let (_, frac_part) := PyStr.optional_char "." s2 in
  match int_part with
  | EmptyString => Raise ValueError
  | _ =>
      if all_digits frac_part
      then Ok (of_decimal (negb (String.eqb sign EmptyString))
                 (digits_value (digits_value 0 int_part) frac_part)
                 (String.length frac_part))
      else Raise ValueError
  end.

(** [x / y] on floats: Python raises on a zero divisor of either sign. *)
Definition truediv (x y : float) : result float :=
  if PrimFloat.eqb y 0%float then Raise ZeroDivisionError
  else Ok (PrimFloat.div x y).

End PyFloat.

(** A JSON value as [expected_answer] holds it.  JSON floats are left out:
    their [str] is the shortest round-trip numeral. *)
Inductive py_value : Type :=
| PyNone
| PyBool (b : bool)
| PyInt (z : Z)
| PyStr (s : string).

(** [str(v)] *)
Definition str (v : py_value) : string :=
  match v with
  | PyNone => "None"
  | PyBool true => "True"
  | PyBool false => "False"
  | PyInt z => NilZero.string_of_int (Z.to_int z)
  | PyStr s => s
  end.

(** ** run_benchmarks.py *)

Inductive system : Type := LLM | LLM_RAG | RCE_LLM.

Definition system_eqb (a b : system) : bool :=
  match a, b with
  | LLM, LLM | LLM_RAG, LLM_RAG | RCE_LLM, RCE_LLM => true
  | _, _ => false
  end.

(** The systems in the order the code lists them. *)
Definition systems_in_order : list system := [LLM; LLM_RAG; RCE_LLM].

(** One entry of [query_result["systems"]]. *)
Record system_result : Type := {
  sr_system : system;
  response : option string;
  correct : bool
}.

(** The value of [benchmark_query]. *)
Record query_result : Type := {
  query_id : string;
  expected_answer : py_value;
  systems : list system_result
}.

(** The [tolerance] entry of a query item. *)
Inductive tolerance_field : Type :=
| TolAbsent
| TolNumber (t : float)
| TolText (s : string).

Record query : Type := {
  q_id : string;
  q_expected_answer : py_value;
  q_tolerance : tolerance_field
}.

Module Runner.

Import PyStr PyFloat.
Local Open Scope string_scope.
Local Open Scope py_scope.

(** The default of the [tolerance] parameter and of [query.get]. *)
Definition default_tolerance : float := 0.05%float.

Definition validate_response (response : option string)
    (expected_answer : py_value) (tolerance : float) : result bool :=
  match response with
  | None | Some EmptyString => Ok false
  | Some response =>
      let response_lower := strip (lower response) in
      let expected_lower := strip (lower (str expected_answer)) in
      if contains expected_lower response_lower then Ok true
      else
        try_except_pass
          (let response_numbers := findall response_lower in
           let expected_numbers := findall expected_lower in
           match response_numbers, expected_numbers with
           | rn :: _, en :: _ =>
               response_val <- float_of_numeral rn ;;
               expected_val <- float_of_numeral en ;;
               ratio <- truediv (abs (response_val - expected_val)) expected_val ;;
               if (ratio <=? tolerance)%float then Ok (Some true) else Ok None
           | _, _ => Ok None
           end)
          [ValueError; ZeroDivisionError]
          (Ok false)
  end.

Section BenchmarkQuery.

(** [float(s)] on the text of a [tolerance] entry: [None] stands for the
    [ValueError] of a text that is no number. *)
Variable float_of_text : string -> option float.

(** The tolerance [benchmark_query] passes on. *)
Definition query_tolerance (q : query) : result float :=
  match q_tolerance q with
  | TolAbsent => Ok default_tolerance
  | TolNumber t => Ok t
  | TolText s =>
      if String.eqb s "exact" then Ok default_tolerance
      else match float_of_text s with
           | Some t => Ok t
           | None => Raise ValueError
           end
  end.

(** [benchmark_query], given what the three systems answered. *)
Definition benchmark_query (q : query)
    (llm_response rag_response rce_response : option string)
    : result query_result :=
  tolerance <- query_tolerance q ;;
  llm_correct <- validate_response llm_response (q_expected_answer q) tolerance ;;
  rag_correct <- validate_response rag_response (q_expected_answer q) tolerance ;;
  rce_correct <- validate_response rce_response (q_expected_answer q) tolerance ;;
  Ok {| query_id := q_id q;
        expected_answer := q_expected_answer q;
        systems :=
          [ {| sr_system := LLM; response := llm_response; correct := llm_correct |};
            {| sr_system := LLM_RAG; response := rag_response; correct := rag_correct |};
            {| sr_system := RCE_LLM; response := rce_response; correct := rce_correct |} ] |}.

End BenchmarkQuery.

End Runner.


(** ** Counters and ratios shared by both scripts *)

(** A dict with exactly the three system names as keys. *)
Definition per_system (A : Type) : Type := system -> A.

(** [{"LLM": 0, "LLM+RAG": 0, "RCE-LLM": 0}] *)
Definition zero_counts : per_system nat := fun _ => 0%nat.

(** [d[key] += 1] *)
Definition incr (d : per_system nat) (key : system) : per_system nat :=
  fun s => if system_eqb key s then S (d s) else d s.

(** [num / den if den > 0 else 0.0] on two counters. *)
Definition ratio_or_zero (num den : nat) : Q :=
  if (0 <? den)%nat
  then inject_Z (Z.of_nat num) / inject_Z (Z.of_nat den)
  else 0.

(** [a > b] on accuracies. *)
Definition Qgtb (a b : Q) : bool := negb (Qle_bool a b).

(** The loop body
    [for system_result in query_result["systems"]:
       if system_result["correct"]: system_correct[system] += 1]. *)
Definition tally_correct (system_correct : per_system nat)
    (query_result : query_result) : per_system nat :=
  fold_left
    (fun acc system_result =>
       if correct system_result then incr acc (sr_system system_result) else acc)
    (systems query_result) system_correct.

(** One entry of [results["task_families"]]. *)
Record family_data : Type := {
  total_queries : nat;
  queries : list query_result;
  accuracy : per_system Q
}.

Module RunnerAggregate.

Local Open Scope py_scope.

(** [BenchmarkRunner.compute_accuracy] *)
Definition compute_accuracy (queries : list query_result) : per_system Q :=
  let system_correct := fold_left tally_correct queries zero_counts in
  let total := List.length queries in
  fun system => ratio_or_zero (system_correct system) total.

Section BenchmarkTaskFamily.

Variable float_of_text : string -> option float.

(** A loaded query with the three answers it received. *)
Definition answered_query : Type :=
  (query * (option string * option string * option string))%type.

(** The loop of [benchmark_task_family] over the loaded queries. *)
Fixpoint benchmark_queries (items : list answered_query)
    : result (list query_result) :=
  match items with
  | [] => Ok []
  | (q, (llm, rag, rce)) :: rest =>
      query_result <- Runner.benchmark_query float_of_text q llm rag rce ;;
      others <- benchmark_queries rest ;;
      Ok (query_result :: others)
  end.

(** [benchmark_task_family]: [None] is the empty dict of a family without
    queries. *)
Definition benchmark_task_family (items : list answered_query)
    : result (option family_data) :=
  match items with
  | [] => Ok None
  | _ =>
      qs <- benchmark_queries items ;;
      Ok (Some {| total_queries := List.length items;
                  queries := qs;
                  accuracy := compute_accuracy qs |})
  end.

End BenchmarkTaskFamily.

End RunnerAggregate.

(** ** statistical_analysis.py *)

(** [{"correct": c, "total": t, "accuracy": a}] *)
Record accuracy_entry : Type := {
  ae_correct : nat;
  ae_total : nat;
  ae_accuracy : Q
}.

(** [{"cohens_h": h, "interpretation": label}] *)
Record effect_size : Type := {
  cohens_h_value : R;
  interpretation : string
}.

Record effect_sizes : Type := {
  RCE_vs_LLM : effect_size;
  RCE_vs_RAG : effect_size
}.

Record hypotheses_validation : Type := {
  H1_supported : bool;
  H1_improvement_percentage : Q;
  H2_supported : bool;
  H2_improvement_percentage : Q;
  H3_supported : bool;
  H3_families_improved : nat;
  H3_total_families : nat;
  H4_supported : bool
}.

(** A dict keyed by family name, in insertion order. *)
Definition by_family (A : Type) : Type := list (string * A).

Fixpoint family_lookup {A : Type} (name : string) (d : by_family A) : option A :=
  match d with
  | [] => None
  | (k, v) :: rest => if String.eqb k name then Some v else family_lookup name rest
  end.

Module Analyzer.

Local Open Scope R_scope.
Local Open Scope py_scope.

(** The two counters of [compute_overall_accuracy] after one system result. *)
Definition tally_overall (st : per_system nat * per_system nat)
    (system_result : system_result) : per_system nat * per_system nat :=
  let (system_correct, system_total) := st in
  let system := sr_system system_result in
  let system_total := incr system_total system in
  if correct system_result
  then (incr system_correct system, system_total)
  else (system_correct, system_total).

Definition tally_overall_query (st : per_system nat * per_system nat)
    (query_result : query_result) : per_system nat * per_system nat :=
  fold_left tally_overall (systems query_result) st.

Definition tally_overall_family (st : per_system nat * per_system nat)
    (family : string * family_data) : per_system nat * per_system nat :=
  fold_left tally_overall_query (queries (snd family)) st.

(** [compute_overall_accuracy]: the value of [analysis["overall_accuracy"]]. *)
Definition compute_overall_accuracy (task_families : by_family family_data)
    : per_system accuracy_entry :=
  let (system_correct, system_total) :=
    fold_left tally_overall_family task_families (zero_counts, zero_counts) in
  fun system =>
    {| ae_correct := system_correct system;
       ae_total := system_total system;
       ae_accuracy := ratio_or_zero (system_correct system) (system_total system) |}.

(** The body of the loop of [compute_task_family_accuracy] for one family. *)
Definition family_accuracy (family_data : family_data) : per_system accuracy_entry :=
  let system_correct := fold_left tally_correct (queries family_data) zero_counts in
  let total := List.length (queries family_data) in
  fun system =>
    {| ae_correct := system_correct system;
       ae_total := total;
       ae_accuracy := ratio_or_zero (system_correct system) total |}.

(** [compute_task_family_accuracy]: the value of
    [analysis["task_family_accuracy"]]. *)
Definition compute_task_family_accuracy (task_families : by_family family_data)
    : by_family (per_system accuracy_entry) :=
  map (fun family => (fst family, family_accuracy (snd family))) task_families.

(** [math.sqrt] *)
Definition math_sqrt (x : R) : result R :=
  if Rlt_dec x 0 then Raise ValueError else Ok (sqrt x).

(** [math.asin] *)
Definition math_asin (x : R) : result R :=
  if Rle_dec (-1) x then
    if Rle_dec x 1 then Ok (asin x) else Raise ValueError
  else Raise ValueError.

(** The local function [cohens_h] of [compute_effect_sizes]. *)
Definition cohens_h (p1 p2 : R) : result R :=
  s1 <- math_sqrt p1 ;;
  a1 <- math_asin s1 ;;
  let phi1 := 2 * a1 in
  s2 <- math_sqrt p2 ;;
  a2 <- math_asin s2 ;;
  let phi2 := 2 * a2 in
  Ok (phi1 - phi2).

Definition _interpret_cohens_h (h : R) : string :=
  let abs_h := Rabs h in
  if Rlt_dec abs_h (2 / 10) then "negligible"
  else if Rlt_dec abs_h (5 / 10) then "small"
  else if Rlt_dec abs_h (8 / 10) then "medium"
  else "large".

(** [compute_effect_sizes]: the value of [analysis["effect_sizes"]].  The
    method has no handler, so what [cohens_h] raises leaves it. *)
Definition compute_effect_sizes (overall_accuracy : per_system accuracy_entry)
    : result effect_sizes :=
  let rce_accuracy := Q2R (ae_accuracy (overall_accuracy RCE_LLM)) in
  let llm_accuracy := Q2R (ae_accuracy (overall_accuracy LLM)) in
  let rag_accuracy := Q2R (ae_accuracy (overall_accuracy LLM_RAG)) in
  effect_rce_vs_llm <- cohens_h rce_accuracy llm_accuracy ;;
  effect_rce_vs_rag <- cohens_h rce_accuracy rag_accuracy ;;
  Ok {| RCE_vs_LLM :=
          {| cohens_h_value := effect_rce_vs_llm;
             interpretation := _interpret_cohens_h effect_rce_vs_llm |};
        RCE_vs_RAG :=
          {| cohens_h_value := effect_rce_vs_rag;
             interpretation := _interpret_cohens_h effect_rce_vs_rag |} |}.

Local Close Scope R_scope.
Local Open Scope Q_scope.

(** The entry [validate_hypotheses] appends to [improvements] for one
    family. *)
Definition family_improved (family_acc : per_system accuracy_entry) : bool :=
  let rce_family := ae_accuracy (family_acc RCE_LLM) in
  let llm_family := ae_accuracy (family_acc LLM) in
  let rag_family := ae_accuracy (family_acc LLM_RAG) in
  let improvement_vs_llm := Qgtb rce_family llm_family in
  let improvement_vs_rag := Qgtb rce_family rag_family in
  improvement_vs_llm && improvement_vs_rag.

(** [(a - b) / b * 100 if b > 0 else 0] *)
Definition improvement_percentage (a b : Q) : Q :=
  if Qgtb b 0 then (a - b) / b * 100 else 0.

(** [validate_hypotheses]: the value of [analysis["hypotheses_validation"]]. *)
Definition validate_hypotheses (overall_accuracy : per_system accuracy_entry)
    (task_family_accuracy : by_family (per_system accuracy_entry))
    : hypotheses_validation :=
  let rce_acc := ae_accuracy (overall_accuracy RCE_LLM) in
  let llm_acc := ae_accuracy (overall_accuracy LLM) in
  let rag_acc := ae_accuracy (overall_accuracy LLM_RAG) in
  let h1_valid := Qgtb rce_acc llm_acc in
  let h2_valid := Qgtb rce_acc rag_acc in
  let improvements := map (fun family => family_improved (snd family)) task_family_accuracy in
  let h3_valid := forallb (fun b => b) improvements in
  let h4_valid :=
    match family_lookup "f5_factual" task_family_accuracy with
    | Some f5 =>
        Qgtb (ae_accuracy (f5 RCE_LLM))
             (Qmax (ae_accuracy (f5 LLM)) (ae_accuracy (f5 LLM_RAG)))
    | None => false
    end in
  {| H1_supported := h1_valid;
     H1_improvement_percentage := improvement_percentage rce_acc llm_acc;
     H2_supported := h2_valid;
     H2_improvement_percentage := improvement_percentage rce_acc rag_acc;
     H3_supported := h3_valid;
     H3_families_improved := List.length (filter (fun b => b) improvements);
     H3_total_families := List.length improvements;
     H4_supported := h4_valid |}.

End Analyzer.

(** ** create_demo_results.py *)

Module Demo.

Local Open Scope string_scope.
Local Open Scope Q_scope.

(** [demo_analysis["overall_accuracy"]] *)
Definition overall_accuracy : per_system accuracy_entry :=
  fun system =>
    match system with
    | LLM => {| ae_correct := 18; ae_total := 30; ae_accuracy := 600 # 1000 |}
    | LLM_RAG => {| ae_correct := 21; ae_total := 30; ae_accuracy := 700 # 1000 |}
    | RCE_LLM => {| ae_correct := 28; ae_total := 30; ae_accuracy := 933 # 1000 |}
    end.

(** [demo_analysis["effect_sizes"]["RCE_vs_LLM"]], as the script writes it. *)
Definition recorded_RCE_vs_LLM : effect_size :=
  {| cohens_h_value := (789 / 1000)%R; interpretation := "large" |}.

Definition entry (c t : nat) (a : Q) : accuracy_entry :=
  {| ae_correct := c; ae_total := t; ae_accuracy := a |}.

Definition table (llm rag rce : accuracy_entry) : per_system accuracy_entry :=
  fun system =>
    match system with
    | LLM => llm
    | LLM_RAG => rag
    | RCE_LLM => rce
    end.

(** [demo_analysis["task_family_accuracy"]] *)
Definition task_family_accuracy : by_family (per_system accuracy_entry) :=
  [ ("f1_units",
     table (entry 5 8 (625 # 1000)) (entry 6 8 (750 # 1000)) (entry 7 8 (875 # 1000)));
    ("f2_temporal",
     table (entry 4 8 (500 # 1000)) (entry 5 8 (625 # 1000)) (entry 7 8 (875 # 1000)));
    ("f3_arithmetic",
     table (entry 6 8 (750 # 1000)) (entry 6 8 (750 # 1000)) (entry 8 8 (1000 # 1000)));
    ("f4_coreference",
     table (entry 2 3 (667 # 1000)) (entry 2 3 (667 # 1000)) (entry 3 3 (1000 # 1000)));
    ("f5_factual",
     table (entry 1 3 (333 # 1000)) (entry 2 3 (667 # 1000)) (entry 3 3 (1000 # 1000))) ].

End Demo.

(** ** Well-formed query results *)

(** How many entries of [systems] belong to [s]. *)
Definition responses_of (s : system) (qr : query_result) : nat :=
  List.length (filter (fun sr => system_eqb (sr_system sr) s) (systems qr)).

(** No system answers a query twice. *)
Definition at_most_one_response (qr : query_result) : bool :=
  forallb (fun s => (responses_of s qr <=? 1)%nat) systems_in_order.

(** Exactly one response per system. *)
Definition one_response_per_system (qr : query_result) : bool :=
  forallb (fun s => (responses_of s qr =? 1)%nat) systems_in_order.

(** ** Reading a reported figure *)

(** Two effect sizes the report prints alike: it prints three decimals. *)
Definition same_to_three_decimals (x y : R) : Prop :=
  (Rabs (x - y) <= 5 / 10000)%R.

(** An [overall_accuracy] table holding the given ratios. *)
Definition accuracies (llm rag rce : Q) : per_system accuracy_entry :=
  fun system =>
    {| ae_correct := 0; ae_total := 0;
       ae_accuracy := match system with
                      | LLM => llm
                      | LLM_RAG => rag
                      | RCE_LLM => rce
                      end |}.

(** An accuracy [a] reported with the counters [c] and [t] is their ratio,
    and 0 on an empty total. *)
Definition is_ratio (c t : nat) (a : Q) : Prop :=
  (t = 0%nat -> a = 0)
  /\ ((0 < t)%nat -> a = inject_Z (Z.of_nat c) / inject_Z (Z.of_nat t)).

Definition in_unit_interval (a : Q) : Prop := 0 <= a <= 1.

(** Every query of every family satisfies [ok]. *)
Definition every_query (ok : query_result -> bool)
    (task_families : by_family family_data) : bool :=
  forallb (fun family => forallb ok (queries (snd family))) task_families.

(** The entries of a query that count as correct for [s]. *)
Definition correct_of (s : system) (qr : query_result) : nat :=
  List.length
    (filter (fun sr => system_eqb (sr_system sr) s && correct sr) (systems qr)).

(** The two counters of [compute_overall_accuracy] are ordered: no system has more correct answers than answers. *)
Definition ordered (st : per_system nat * per_system nat) : Prop :=
  forall s, (fst st s <= snd st s)%nat.

(** ** Sample data *)

Module Sample.

Local Open Scope string_scope.

Definition answer (s : system) (text : string) (ok : bool) : system_result :=
  {| sr_system := s; response := Some text; correct := ok |}.

(** Two scored queries of one family, as [benchmark_query] shapes them. *)
Definition scored_queries : list query_result :=
  [ {| query_id := "f1_001"; expected_answer := PyStr "9.8";
       systems := [ answer LLM "about 12" false;
                    answer LLM_RAG "9.8 m/s^2" true;
                    answer RCE_LLM "9.8" true ] |};
    {| query_id := "f1_002"; expected_answer := PyInt 100;
       systems := [ answer LLM "no idea" false;
                    answer LLM_RAG "250" false;
                    answer RCE_LLM "100" true ] |} ].

Definition task_families : by_family family_data :=
  [ ("f1_units",
     {| total_queries := 2;
        queries := scored_queries;
        accuracy := RunnerAggregate.compute_accuracy scored_queries |}) ].


(** A query item flagged exact. *)
Definition flagged_exact : query :=
  {| q_id := "f3_001"; q_expected_answer := PyStr "100";
     q_tolerance := TolText "exact" |}.

End Sample.

(** The item [q] with its [tolerance] entry removed. *)
Definition without_tolerance (q : query) : query :=
  {| q_id := q_id q; q_expected_answer := q_expected_answer q;
     q_tolerance := TolAbsent |}.

(** A text that does not start with a digit. *)
Definition no_leading_digit (s : string) : bool :=
  match s with
  | String c _ => negb (PyStr.isdigit c)
  | EmptyString => true
  end.

(** [s.lower().strip()], what [validate_response] compares. *)
Definition normalized (s : string) : string := PyStr.strip (PyStr.lower s).

(** ** The calls to the three systems *)

(** What [subprocess.run] gave: a finished process, or the exception it
    raised (the timeout among them) with its text. *)
Inductive process_outcome : Type :=
| Exited (stdout : string) (returncode : Z) (stderr : string)
| ProcessError (message : string).

(** The body of an HTTP reply as [response.json()] reads it: an object
    without the key ["answer"] ([None]) or with it, holding a text or [null]
    ([Some None]); or the exception of a body that is no JSON. *)
Inductive json_body : Type :=
| JsonObject (answer : option (option string))
| NotJson (message : string).

(** What [requests.post] gave. *)
Inductive http_outcome : Type :=
| Replied (status_code : Z) (text : string) (body : json_body)
| RequestError (message : string).

(** The dict a query function returns, without the clock reading and the
    entries passed through unread ([coherence_score], [coherence_modules],
    [pipeline_trace], [retrieval_enabled]). *)
Record call_result : Type := {
  cr_system : system;
  cr_response : option string;
  cr_success : bool;
  cr_error : option string
}.

Module RunnerCalls.

Local Open Scope string_scope.

(** The [except Exception as e] branch of the three query functions. *)
Definition failed_call (s : system) (message : string) : call_result :=
  {| cr_system := s; cr_response := None; cr_success := false;
     cr_error := Some message |}.

(** The [try] branch shared by the two Ollama calls. *)
Definition ollama_call (s : system) (o : process_outcome) : call_result :=
  match o with
  | Exited stdout returncode stderr =>
      {| cr_system := s;
         cr_response := Some (PyStr.strip stdout);
         cr_success := (returncode =? 0)%Z;
         cr_error := if (returncode =? 0)%Z then None else Some stderr |}
  | ProcessError message => failed_call s message
  end.

Definition query_llm_baseline (o : process_outcome) : call_result :=
  ollama_call LLM o.

Definition query_llm_rag_baseline (o : process_outcome) : call_result :=
  ollama_call LLM_RAG o.

Definition query_rce_llm (o : http_outcome) : call_result :=
  match o with
  | Replied status_code text body =>
      if (status_code =? 200)%Z then
        match body with
        | JsonObject answer =>
            {| cr_system := RCE_LLM;
               cr_response := match answer with
                              | Some a => a
                              | None => Some ""
                              end;
               cr_success := true;
               cr_error := None |}
        | NotJson message => failed_call RCE_LLM message
        end
      else
        {| cr_system := RCE_LLM; cr_response := None; cr_success := false;
           cr_error := Some ("HTTP " ++ str (PyInt status_code) ++ ": " ++ text) |}
  | RequestError message => failed_call RCE_LLM message
  end.

(** [benchmark_query] from the outcomes of the three calls. *)
Definition benchmark_query_calls (float_of_text : string -> option float)
    (q : query) (llm rag : process_outcome) (rce : http_outcome)
    : result query_result :=
  Runner.benchmark_query float_of_text q
    (cr_response (query_llm_baseline llm))
    (cr_response (query_llm_rag_baseline rag))
    (cr_response (query_rce_llm rce)).

End RunnerCalls.

(** ** The two [run] methods *)

(** [d[name] = v] on a dict in insertion order. *)
Fixpoint family_insert {A : Type} (name : string) (v : A) (d : by_family A)
    : by_family A :=
  match d with
  | [] => [(name, v)]
  | (k, w) :: rest =>
      if String.eqb k name then (k, v) :: rest
      else (k, w) :: family_insert name v rest
  end.

(** [self.results] of the runner: the [total_queries] of its metadata and
    its [task_families]. *)
Record benchmark_results : Type := {
  meta_total_queries : nat;
  task_families : by_family family_data
}.

Module RunnerRun.

Local Open Scope string_scope.
Local Open Scope py_scope.

Definition TASK_FAMILIES : list string :=
  ["f1_units"; "f2_temporal"; "f3_arithmetic"; "f4_coreference"; "f5_factual"].

Section Run.

Variable float_of_text : string -> option float.

(** The queries [load_queries] finds for a family, the empty list on a
    missing file, each with what the three systems answer to it. *)
Variable load_queries : string -> list RunnerAggregate.answered_query.

(** The loop of [run] over the task families. *)
Fixpoint run_families (names : list string) (results : benchmark_results)
    : result benchmark_results :=
  match names with
  | [] => Ok results
  | task_family :: rest =>
      family_results <-
        RunnerAggregate.benchmark_task_family float_of_text
          (load_queries task_family) ;;
      match family_results with
      | Some family_results =>
          run_families rest
            {| meta_total_queries :=
                 meta_total_queries results + total_queries family_results;
               task_families :=
                 family_insert task_family family_results (task_families results) |}
      | None => run_families rest results
      end
  end.

(** [BenchmarkRunner.run], up to the results it saves. *)
Definition run : result benchmark_results :=
  run_families TASK_FAMILIES {| meta_total_queries := 0; task_families := [] |}.

End Run.

End RunnerRun.

(** [self.analysis] of the analyzer once [run] has filled it. *)
Record analysis : Type := {
  an_overall_accuracy : per_system accuracy_entry;
  an_task_family_accuracy : by_family (per_system accuracy_entry);
  an_effect_sizes : effect_sizes;
  an_hypotheses_validation : hypotheses_validation
}.

Module AnalyzerRun.

Local Open Scope py_scope.

(** [StatisticalAnalyzer.run], up to the analysis it saves.  [None] as
    argument is the missing results file, [None] as value the early return
    that follows it. *)
Definition run (results : option benchmark_results) : result (option analysis) :=
  match results with
  | None => Ok None
  | Some results =>
      let overall := Analyzer.compute_overall_accuracy (task_families results) in
      let families := Analyzer.compute_task_family_accuracy (task_families results) in
      effect <- Analyzer.compute_effect_sizes overall ;;
      Ok (Some {| an_overall_accuracy := overall;
                  an_task_family_accuracy := families;
                  an_effect_sizes := effect;
                  an_hypotheses_validation :=
                    Analyzer.validate_hypotheses overall families |})
  end.

End AnalyzerRun.

(** ** Measures used in the statements *)

(** Some character of [s] is a digit. *)
Fixpoint has_digit (s : string) : bool :=
  match s with
  | EmptyString => false
  | String c r => PyStr.isdigit c || has_digit r
  end.

(** The sum of [f] over the entries of a dict. *)
Definition family_sum {A : Type} (f : A -> nat) (d : by_family A) : nat :=
  list_sum (map (fun family => f (snd family)) d).

(** What the runner records for a family with [n] loaded queries. *)
Definition family_recorded (n : nat) (fd : family_data) : Prop :=
  total_queries fd = n
  /\ List.length (queries fd) = n
  /\ (0 < n)%nat
  /\ accuracy fd = RunnerAggregate.compute_accuracy (queries fd)
  /\ forallb one_response_per_system (queries fd) = true.

(** * Properties *)

(** ** Effect size *)

Module EffectSize.

Import Analyzer.
Local Open Scope R_scope.

Lemma math_sqrt_ok (x : R) : 0 <= x -> math_sqrt x = Ok (sqrt x).
Proof.
  intros Hx. unfold math_sqrt. destruct (Rlt_dec x 0) as [Hneg | _].
  - lra.
  - reflexivity.
Qed.


Lemma math_asin_ok (x : R) : -1 <= x <= 1 -> math_asin x = Ok (asin x).
Proof.
  intros [Hlo Hhi]. unfold math_asin.
  destruct (Rle_dec (-1) x); [ | contradiction ].
  destruct (Rle_dec x 1); [ reflexivity | contradiction ].
Qed.


Lemma sqrt_unit_interval (p : R) : 0 <= p <= 1 -> -1 <= sqrt p <= 1.
Proof.
  intros [Hlo Hhi]. split.
  - pose proof (sqrt_pos p). lra.
  - rewrite <- sqrt_1. now apply sqrt_le_1_alt.
Qed.


(** The angle [2 * asin (sqrt p)] of one proportion, or the domain error. *)
Lemma phi_in_range (p : R) (k : R -> result R) :
  0 <= p <= 1 ->
  bind (math_sqrt p) (fun s => bind (math_asin s) k) = k (asin (sqrt p)).
Proof.
  intros Hp. rewrite math_sqrt_ok by lra. cbn [bind].
  rewrite math_asin_ok by now apply sqrt_unit_interval.
  reflexivity.
Qed.


Lemma cohens_h_in_range (p1 p2 : R) :
  0 <= p1 <= 1 -> 0 <= p2 <= 1 ->
  cohens_h p1 p2 = Ok (2 * asin (sqrt p1) - 2 * asin (sqrt p2)).
Proof.
  intros H1 H2. unfold cohens_h.
  rewrite phi_in_range by assumption.
  rewrite phi_in_range by assumption.
  reflexivity.
Qed.


(** Closed forms of the polynomial bounds on the sine. *)
Lemma sin_ub_closed (a : R) :
  sin_ub a = a - a^3/6 + a^5/120 - a^7/5040 + a^9/362880.
Proof.
  unfold sin_ub, sin_approx, sin_term. cbn [sum_f_R0].
  replace (INR (fact (2 * 0 + 1))) with 1 by (cbn; lra).
  replace (INR (fact (2 * 1 + 1))) with 6 by (rewrite INR_IZR_INZ; reflexivity).
  replace (INR (fact (2 * 2 + 1))) with 120 by (rewrite INR_IZR_INZ; reflexivity).
  replace (INR (fact (2 * 3 + 1))) with 5040 by (rewrite INR_IZR_INZ; reflexivity).
  replace (INR (fact (2 * 4 + 1))) with 362880 by (rewrite INR_IZR_INZ; reflexivity).
  cbn [Nat.mul Nat.add pow]. field.
Qed.

Lemma sin_lb_closed (a : R) :
  sin_lb a = a - a^3/6 + a^5/120 - a^7/5040.
Proof.
  unfold sin_lb, sin_approx, sin_term. cbn [sum_f_R0].
  replace (INR (fact (2 * 0 + 1))) with 1 by (cbn; lra).
  replace (INR (fact (2 * 1 + 1))) with 6 by (rewrite INR_IZR_INZ; reflexivity).
  replace (INR (fact (2 * 2 + 1))) with 120 by (rewrite INR_IZR_INZ; reflexivity).
  replace (INR (fact (2 * 3 + 1))) with 5040 by (rewrite INR_IZR_INZ; reflexivity).
  cbn [Nat.mul Nat.add pow]. field.
Qed.

Lemma first_quadrant (t : R) :
  0 <= t <= 3/2 -> (- (PI/2) <= t <= PI/2) /\ (0 <= t <= PI).
Proof.
  pose proof PI2_3_2. pose proof PI_RGT_0. intros Ht. lra.
Qed.

(** An angle lies below [asin v] once the upper bound of its sine does. *)
Lemma asin_above (t v : R) :
  0 <= t <= 3/2 -> -1 <= v <= 1 -> sin_ub t < v -> t < asin v.
Proof.
  intros Ht Hv Hlt. destruct (first_quadrant t Ht) as [[? ?] [? ?]].
  destruct (asin_bound v).
  apply sin_increasing_0; try assumption.
  rewrite sin_asin by assumption.
  destruct (SIN t) as [_ Hub]; try assumption. lra.
Qed.

Lemma asin_below (t v : R) :
  0 <= t <= 3/2 -> -1 <= v <= 1 -> v < sin_lb t -> asin v < t.
Proof.
  intros Ht Hv Hlt. destruct (first_quadrant t Ht) as [[? ?] [? ?]].
  destruct (asin_bound v).
  apply sin_increasing_0; try assumption.
  rewrite sin_asin by assumption.
  destruct (SIN t) as [Hlb _]; try assumption. lra.
Qed.

Lemma sqrt_between (x lo hi : R) :
  0 <= lo -> lo * lo < x -> x < hi * hi -> 0 <= hi -> lo < sqrt x < hi.
Proof.
  intros Hlo Hbelow Habove Hhi. split.
  - rewrite <- (sqrt_square lo) by assumption. apply sqrt_lt_1_alt. nra.
  - rewrite <- (sqrt_square hi) by assumption. apply sqrt_lt_1_alt. nra.
Qed.

Lemma asin_sqrt_933 : 130895/100000 < asin (sqrt (933/1000)) < 130920/100000.
Proof.
  destruct (sqrt_between (933/1000) (965919/1000000) (965930/1000000))
    as [Hlo Hhi]; try lra.
  split.
  - apply asin_above; try lra. rewrite sin_ub_closed. lra.
  - apply asin_below; try lra. rewrite sin_lb_closed. lra.
Qed.

Lemma asin_sqrt_600 : 88600/100000 < asin (sqrt (600/1000)) < 88610/100000.
Proof.
  destruct (sqrt_between (600/1000) (77457/100000) (77460/100000))
    as [Hlo Hhi]; try lra.
  split.
  - apply asin_above; try lra. rewrite sin_ub_closed. lra.
  - apply asin_below; try lra. rewrite sin_lb_closed. lra.
Qed.

Lemma interpret_large (h : R) : 8/10 <= h -> _interpret_cohens_h h = "large"%string.
Proof.
  intros Hh. unfold _interpret_cohens_h.
  rewrite Rabs_right by lra.
  destruct (Rlt_dec h (2/10)); [ lra | ].
  destruct (Rlt_dec h (5/10)); [ lra | ].
  destruct (Rlt_dec h (8/10)); [ lra | reflexivity ].
Qed.

(** The value the demonstration script records falls in the bucket below
    the label it records with it. *)
Lemma recorded_value_is_medium :
  _interpret_cohens_h (cohens_h_value Demo.recorded_RCE_vs_LLM) = "medium"%string.
Proof.
  unfold _interpret_cohens_h, Demo.recorded_RCE_vs_LLM. cbn [cohens_h_value].
  rewrite Rabs_right by lra.
  destruct (Rlt_dec (789/1000) (2/10)); [ lra | ].
  destruct (Rlt_dec (789/1000) (5/10)); [ lra | ].
  destruct (Rlt_dec (789/1000) (8/10)); [ reflexivity | lra ].
Qed.

(** A limit of the real-number model: in binary64 the square root of the
    float next above 1 rounds to 1, which [math.asin] accepts. *)
Lemma binary64_sqrt_next_above_one :
  (1 <? 1.0000000000000002)%float = true
  /\ PrimFloat.sqrt 1.0000000000000002%float = 1%float.
Proof. split; reflexivity. Qed.

Lemma demo_effect_size :
  exists es,
    compute_effect_sizes Demo.overall_accuracy = Ok es
    /\ cohens_h_value (RCE_vs_LLM es)
       = 2 * asin (sqrt (933/1000)) - 2 * asin (sqrt (600/1000)).
Proof.
  unfold compute_effect_sizes. cbn [Demo.overall_accuracy ae_accuracy].
  replace (Q2R (933 # 1000)) with (933/1000) by (unfold Q2R; cbn; lra).
  replace (Q2R (600 # 1000)) with (600/1000) by (unfold Q2R; cbn; lra).
  replace (Q2R (700 # 1000)) with (700/1000) by (unfold Q2R; cbn; lra).
  rewrite !cohens_h_in_range by lra. cbn [bind].
  eexists. split; reflexivity.
Qed.

End EffectSize.

(** ** Scoring *)

Module Scoring.

Import PyStr PyFloat Runner.
Local Open Scope string_scope.

Lemma zero_is_plus_zero : Prim2SF 0%float = S754_zero false.
Proof. reflexivity. Qed.

Lemma abs_of_positive (x : float) : (0 <? x)%float = true -> abs x = x.
Proof.
  intros Hpos. apply Prim2SF_inj. rewrite abs_spec.
  rewrite ltb_spec, zero_is_plus_zero in Hpos.
  destruct (Prim2SF x) as [ [ | ] | [ | ] | | [ | ] m e ];
    cbn in Hpos; try discriminate; reflexivity.
Qed.

Lemma positive_is_not_zero (x : float) :
  (0 <? x)%float = true -> (x =? 0)%float = false.
Proof.
  intros Hpos. rewrite eqb_spec, zero_is_plus_zero.
  rewrite ltb_spec, zero_is_plus_zero in Hpos.
  destruct (Prim2SF x) as [ [ | ] | [ | ] | | [ | ] m e ];
    cbn in Hpos; try discriminate; reflexivity.
Qed.

Lemma truediv_by_zero (x y : float) :
  (y =? 0)%float = true -> truediv x y = Raise ZeroDivisionError.
Proof.
  intros Hy. unfold truediv. now rewrite Hy.
Qed.

Lemma truediv_by_positive (x y : float) :
  (0 <? y)%float = true -> truediv x y = Ok (x / y)%float.
Proof.
  intros Hy. unfold truediv. now rewrite positive_is_not_zero.
Qed.

(** The only exception of [float_of_numeral]. *)
Lemma float_of_numeral_raises (tok : string) (e : py_exn) :
  float_of_numeral tok = Raise e -> e = ValueError.
Proof.
  unfold float_of_numeral.
  destruct (optional_char "-" tok) as [sign s1].
  destruct (span_digits s1) as [int_part s2].
  destruct (optional_char "." s2) as [dot frac_part].
  destruct int_part; [ now intros [= <-] | ].
  destruct (all_digits _); [ discriminate | now intros [= <-] ].
Qed.

Lemma span_digits_spec (s : string) :
  all_digits (fst (span_digits s)) = true
  /\ no_leading_digit (snd (span_digits s)) = true.
Proof.
  induction s as [ | c s IH ]; cbn [span_digits].
  - split; reflexivity.
  - destruct (isdigit c) eqn:Hc.
    + destruct (span_digits s) as [d t]. cbn [fst snd] in *.
      destruct IH as [Hd Ht]. cbn [all_digits]. now rewrite Hc, Hd.
    + cbn [fst snd all_digits no_leading_digit]. now rewrite Hc.
Qed.

Lemma span_digits_app (d t : string) :
  all_digits d = true -> no_leading_digit t = true ->
  span_digits (d ++ t) = (d, t).
Proof.
  intros Hd Ht. induction d as [ | c d IH ]; cbn [append].
  - destruct t as [ | c t ]; [ reflexivity | ].
    cbn [span_digits]. cbn [no_leading_digit] in Ht.
    apply negb_true_iff in Ht. now rewrite Ht.
  - cbn [all_digits] in Hd. apply andb_true_iff in Hd as [Hc Hd].
    cbn [span_digits]. now rewrite Hc, (IH Hd).
Qed.

Lemma optional_char_cases (ch : ascii) (s : string) :
  (exists r, s = String ch r /\ optional_char ch s = (String ch "", r))
  \/ optional_char ch s = ("", s).
Proof.
  destruct s as [ | c r ]; [ now right | ]. cbn [optional_char].
  destruct (Ascii.eqb c ch) eqn:Hc; [ left | now right ].
  apply Ascii.eqb_eq in Hc as ->. now exists r.
Qed.

Lemma optional_char_absent (ch : ascii) (s : string) :
  isdigit ch = false -> no_leading_digit s = false ->
  optional_char ch s = ("", s).
Proof.
  intros Hch Hs. destruct s as [ | c r ]; [ reflexivity | ].
  cbn [no_leading_digit] in Hs. apply negb_false_iff in Hs.
  cbn [optional_char]. destruct (Ascii.eqb c ch) eqn:Hc; [ | reflexivity ].
  apply Ascii.eqb_eq in Hc as ->. congruence.
Qed.

(** The fraction the pattern reads after the integer part. *)
Lemma fraction_shape (s2 : string) :
  no_leading_digit s2 = true ->
  let dot := fst (optional_char "." s2) in
  let frac_part := fst (span_digits (snd (optional_char "." s2))) in
  all_digits frac_part = true
  /\ no_leading_digit (dot ++ frac_part) = true
  /\ optional_char "." (dot ++ frac_part) = (dot, frac_part).
Proof.
  intros Hs2. destruct (optional_char_cases "." s2) as [[s3 [_ ->]] | ->];
    cbn [fst snd].
  - destruct (span_digits_spec s3) as [Hfrac _].
    split; [ exact Hfrac | ]. split; [ reflexivity | ].
    cbn [append optional_char]. now rewrite Ascii.eqb_refl.
  - destruct s2 as [ | c r ]; [ now repeat split | ].
    cbn [no_leading_digit] in Hs2. apply negb_true_iff in Hs2.
    cbn [span_digits]. rewrite Hs2. now repeat split.
Qed.

Lemma float_of_numeral_shape (sign int_part dot frac_part : string) :
  sign = "-" \/ sign = "" ->
  int_part <> "" -> all_digits int_part = true ->
  all_digits frac_part = true ->
  no_leading_digit (dot ++ frac_part) = true ->
  optional_char "." (dot ++ frac_part) = (dot, frac_part) ->
  exists v, float_of_numeral (sign ++ int_part ++ dot ++ frac_part) = Ok v.
Proof.
  intros Hsign Hne Hint Hfrac Hlead Hdot. unfold float_of_numeral.
  assert (Hcut : optional_char "-" (sign ++ int_part ++ dot ++ frac_part)
                 = (sign, int_part ++ dot ++ frac_part)).
  { destruct Hsign as [-> | ->].
    - cbn [append optional_char]. now rewrite Ascii.eqb_refl.
    - cbn [append]. apply optional_char_absent; [ reflexivity | ].
      destruct int_part as [ | c rest ]; [ contradiction | ].
      cbn [all_digits] in Hint. apply andb_true_iff in Hint as [Hc _].
      cbn [append no_leading_digit]. now rewrite Hc. }
  rewrite Hcut, (span_digits_app int_part (dot ++ frac_part) Hint Hlead), Hdot.
  destruct int_part; [ contradiction | ]. rewrite Hfrac. eauto.
Qed.

(** [float] accepts every text the pattern matches: the [ValueError] branch
    of the handler is never taken. *)
Lemma match_number_converts (s tok : string) :
  match_number s = Some tok -> exists v, float_of_numeral tok = Ok v.
Proof.
  unfold match_number.
  assert (Hsign : fst (optional_char "-" s) = "-" \/ fst (optional_char "-" s) = "").
  { destruct (optional_char_cases "-" s) as [[r [_ ->]] | ->]; [ now left | now right ]. }
  destruct (optional_char "-" s) as [sign s1]. cbn [fst] in Hsign.
  destruct (span_digits_spec s1) as [Hint Hs2].
  destruct (span_digits s1) as [int_part s2]. cbn [fst snd] in Hint, Hs2.
  destruct (fraction_shape s2 Hs2) as [Hfrac [Hlead Hdot]].
  destruct (optional_char "." s2) as [dot s3]. cbn [fst snd] in *.
  destruct (span_digits s3) as [frac_part rest]. cbn [fst] in *.
  destruct int_part as [ | c int_rest ]; [ discriminate | ].
  intros [= <-].
  apply (float_of_numeral_shape sign (String c int_rest) dot frac_part);
    try assumption.
  discriminate.
Qed.

Lemma findall_from_matches (tok : string) (s : string) :
  forall skip, In tok (findall_from skip s) -> exists s', match_number s' = Some tok.
Proof.
  induction s as [ | c r IH ]; intros skip; cbn [findall_from]; [ contradiction | ].
  destruct skip as [ | k ]; [ | apply IH ].
  destruct (match_number (String c r)) as [tok' | ] eqn:Hm; [ | apply IH ].
  intros [<- | Hin]; [ now exists (String c r) | exact (IH _ Hin) ].
Qed.

Lemma findall_converts (tok : string) (s : string) :
  In tok (findall s) -> exists v, float_of_numeral tok = Ok v.
Proof.
  intros Hin. destruct (findall_from_matches tok s 0 Hin) as [s' Hm].
  exact (match_number_converts s' tok Hm).
Qed.

Lemma findall_empty : findall (normalized "") = [].
Proof. reflexivity. Qed.

(** The shape of [validate_response] on a response that is not empty. *)
Lemma validate_response_nonempty (r : string) (expected : py_value) (tol : float) :
  r <> "" ->
  validate_response (Some r) expected tol
  = if contains (normalized (str expected)) (normalized r) then Ok true
    else
      try_except_pass
        (match findall (normalized r), findall (normalized (str expected)) with
         | rn :: _, en :: _ =>
             bind (float_of_numeral rn) (fun response_val =>
             bind (float_of_numeral en) (fun expected_val =>
             bind (truediv (abs (response_val - expected_val)) expected_val)
               (fun ratio =>
                  if (ratio <=? tol)%float then Ok (Some true) else Ok None)))
         | _, _ => Ok None
         end)
        [ValueError; ZeroDivisionError]
        (Ok false).
Proof.
  intros Hr. destruct r as [ | c r ]; [ contradiction | reflexivity ].
Qed.

Lemma prefix_iff (n h : string) :
  prefix n h = true <-> exists b, h = n ++ b.
Proof.
  revert h. induction n as [ | c n IH ]; intros h.
  - split; [ intros _; now exists h | now destruct h ].
  - destruct h as [ | d h ]; cbn [prefix].
    + split; [ discriminate | intros [b [=]] ].
    + destruct (ascii_dec c d) as [ <- | Hcd ].
      * rewrite IH. split; intros [b Hb]; exists b; cbn; [ now f_equal | ].
        cbn in Hb. now injection Hb.
      * split; [ discriminate | intros [b Hb] ]. cbn in Hb. congruence.
Qed.

(** [contains] is the substring test of Python's [in]. *)
Lemma contains_iff (n h : string) :
  contains n h = true <-> exists a b, h = a ++ n ++ b.
Proof.
  induction h as [ | d h IH ]; cbn [contains].
  - destruct (prefix n "") eqn:Hp.
    + split; [ intros _ | reflexivity ].
      apply prefix_iff in Hp as [b Hb]. now exists "", b.
    + split; [ discriminate | intros [a [b Hab]] ].
      destruct a; [ | discriminate ].
      assert (prefix n "" = true) by (apply prefix_iff; now exists b).
      congruence.
  - destruct (prefix n (String d h)) eqn:Hp.
    + split; [ intros _ | reflexivity ].
      apply prefix_iff in Hp as [b Hb]. now exists "", b.
    + rewrite IH. split.
      * intros [a [b Hab]]. exists (String d a), b. cbn. now f_equal.
      * intros [a [b Hab]]. destruct a as [ | c a ].
        -- assert (prefix n (String d h) = true) by (apply prefix_iff; now exists b).
           congruence.
        -- cbn in Hab. injection Hab as _ Hab. now exists a, b.
Qed.

(** The relative difference is divided by the expected number itself: a
    negative one makes the ratio negative, which is within any tolerance. *)
Lemma negative_expected_is_within_tolerance :
  validate_response (Some "100") (PyInt (-5)) 0.05%float = Ok true.
Proof. reflexivity. Qed.

End Scoring.

(** ** Aggregation *)

Module Aggregate.

Lemma Qgtb_lt (a b : Q) : Qgtb a b = true <-> b < a.
Proof.
  unfold Qgtb. rewrite negb_true_iff. split.
  - intros Hle. apply Qnot_le_lt. intros Hab.
    apply Qle_bool_iff in Hab. congruence.
  - intros Hlt. destruct (Qle_bool a b) eqn:Hle; [ | reflexivity ].
    apply Qle_bool_iff in Hle. exfalso. exact (Qlt_not_le _ _ Hlt Hle).
Qed.

Lemma ratio_or_zero_is_ratio (c t : nat) : is_ratio c t (ratio_or_zero c t).
Proof.
  unfold is_ratio, ratio_or_zero.
  destruct (0 <? t)%nat eqn:Hpos.
  - apply Nat.ltb_lt in Hpos. split; [ lia | reflexivity ].
  - apply Nat.ltb_ge in Hpos. split; [ reflexivity | lia ].
Qed.

Lemma ratio_or_zero_in_unit_interval (c t : nat) :
  (c <= t)%nat -> in_unit_interval (ratio_or_zero c t).
Proof.
  intros Hct. unfold in_unit_interval, ratio_or_zero.
  destruct (0 <? t)%nat eqn:Hpos.
  - apply Nat.ltb_lt in Hpos.
    assert (Ht : 0 < inject_Z (Z.of_nat t)).
    { unfold Qlt. cbn. lia. }
    split.
    + apply Qle_shift_div_l; [ exact Ht | ].
      rewrite Qmult_0_l. change 0 with (inject_Z 0). rewrite <- Zle_Qle. lia.
    + apply Qle_shift_div_r; [ exact Ht | ].
      rewrite Qmult_1_l, <- Zle_Qle. lia.
  - split; discriminate.
Qed.

Lemma incr_at (d : per_system nat) (k s : system) :
  incr d k s = (d s + (if system_eqb k s then 1 else 0))%nat.
Proof.
  unfold incr. destruct (system_eqb k s); lia.
Qed.

Lemma tally_correct_at (s : system) (qr : query_result) (acc : per_system nat) :
  tally_correct acc qr s = (acc s + correct_of s qr)%nat.
Proof.
  unfold tally_correct, correct_of.
  generalize dependent acc.
  induction (systems qr) as [ | sr rest IH ]; intros acc; cbn [fold_left filter].
  - cbn. lia.
  - rewrite IH. destruct (correct sr).
    + rewrite incr_at, andb_true_r.
      destruct (system_eqb (sr_system sr) s); cbn [List.length]; lia.
    + rewrite andb_false_r. reflexivity.
Qed.

Lemma correct_of_le_responses (s : system) (qr : query_result) :
  (correct_of s qr <= responses_of s qr)%nat.
Proof.
  unfold correct_of, responses_of.
  induction (systems qr) as [ | sr rest IH ]; cbn [filter]; [ lia | ].
  destruct (system_eqb (sr_system sr) s); cbn [andb].
  - destruct (correct sr); cbn [List.length]; lia.
  - exact IH.
Qed.

Lemma at_most_one_response_at (s : system) (qr : query_result) :
  at_most_one_response qr = true -> (responses_of s qr <= 1)%nat.
Proof.
  unfold at_most_one_response, systems_in_order. cbn [forallb].
  rewrite !andb_true_iff, !Nat.leb_le. intros [H1 [H2 [H3 _]]].
  destruct s; assumption.
Qed.

Lemma one_response_is_at_most_one (qr : query_result) :
  one_response_per_system qr = true -> at_most_one_response qr = true.
Proof.
  unfold one_response_per_system, at_most_one_response, systems_in_order.
  cbn [forallb]. rewrite !andb_true_iff, !Nat.eqb_eq, !Nat.leb_le. lia.
Qed.

(** The counter of [s] after the loop over a list of queries. *)
Lemma tally_correct_bound (s : system) (queries : list query_result) :
  forallb at_most_one_response queries = true ->
  forall acc,
    (fold_left tally_correct queries acc s <= acc s + List.length queries)%nat.
Proof.
  induction queries as [ | qr rest IH ]; intros Hwf acc; cbn [fold_left List.length].
  - lia.
  - cbn [forallb] in Hwf. apply andb_true_iff in Hwf as [Hqr Hrest].
    specialize (IH Hrest (tally_correct acc qr)).
    rewrite tally_correct_at in IH.
    pose proof (correct_of_le_responses s qr).
    pose proof (at_most_one_response_at s qr Hqr).
    lia.
Qed.

Lemma tally_overall_ordered st sr : ordered st -> ordered (Analyzer.tally_overall st sr).
Proof.
  intros Hst s. specialize (Hst s). destruct st as [c t]. cbn in *.
  unfold Analyzer.tally_overall.
  destruct (correct sr); cbn [fst snd]; rewrite ?incr_at;
    destruct (system_eqb (sr_system sr) s); lia.
Qed.

Lemma fold_ordered {A : Type} (step : per_system nat * per_system nat -> A -> _) :
  (forall st a, ordered st -> ordered (step st a)) ->
  forall l st, ordered st -> ordered (fold_left step l st).
Proof.
  intros Hstep l. induction l as [ | a rest IH ]; intros st Hst; cbn [fold_left].
  - exact Hst.
  - apply IH, Hstep, Hst.
Qed.

Lemma overall_counters_ordered (task_families : by_family family_data) :
  ordered (fold_left Analyzer.tally_overall_family task_families
             (zero_counts, zero_counts)).
Proof.
  apply fold_ordered.
  - intros st family. apply fold_ordered.
    intros st' qr. apply fold_ordered. apply tally_overall_ordered.
  - intros s. cbn. lia.
Qed.

Lemma overall_accuracy_spec (task_families : by_family family_data) (s : system) :
  let e := Analyzer.compute_overall_accuracy task_families s in
  is_ratio (ae_correct e) (ae_total e) (ae_accuracy e)
  /\ in_unit_interval (ae_accuracy e).
Proof.
  unfold Analyzer.compute_overall_accuracy.
  pose proof (overall_counters_ordered task_families) as Hord.
  destruct (fold_left Analyzer.tally_overall_family task_families
              (zero_counts, zero_counts)) as [c t].
  cbn [ae_correct ae_total ae_accuracy]. split.
  - apply ratio_or_zero_is_ratio.
  - apply ratio_or_zero_in_unit_interval. exact (Hord s).
Qed.


Lemma compute_accuracy_in_unit_interval (queries : list query_result) (s : system) :
  forallb at_most_one_response queries = true ->
  in_unit_interval (RunnerAggregate.compute_accuracy queries s).
Proof.
  intros Hwf. unfold RunnerAggregate.compute_accuracy.
  apply ratio_or_zero_in_unit_interval.
  exact (tally_correct_bound s queries Hwf zero_counts).
Qed.

(** Both stages compute the same ratio from a list of queries. *)
Lemma family_accuracy_is_compute_accuracy (fd : family_data) (s : system) :
  ae_accuracy (Analyzer.family_accuracy fd s)
  = RunnerAggregate.compute_accuracy (queries fd) s.
Proof. reflexivity. Qed.

Lemma lookup_task_family_accuracy (name : string)
    (task_families : by_family family_data) :
  family_lookup name (Analyzer.compute_task_family_accuracy task_families)
  = option_map Analyzer.family_accuracy (family_lookup name task_families).
Proof.
  induction task_families as [ | [k fd] rest IH ]; [ reflexivity | ].
  cbn [Analyzer.compute_task_family_accuracy map family_lookup fst snd].
  destruct (String.eqb k name); [ reflexivity | exact IH ].
Qed.


Lemma every_query_in (ok : query_result -> bool) (name : string) (fd : family_data)
    (task_families : by_family family_data) :
  every_query ok task_families = true ->
  In (name, fd) task_families -> forallb ok (queries fd) = true.
Proof.
  unfold every_query. rewrite forallb_forall. intros Hall Hin.
  exact (Hall (name, fd) Hin).
Qed.

Lemma forallb_weaken {A : Type} (p q : A -> bool) (l : list A) :
  (forall a, p a = true -> q a = true) ->
  forallb p l = true -> forallb q l = true.
Proof.
  intros Hpq. rewrite !forallb_forall. intros Hp a Ha. apply Hpq, Hp, Ha.
Qed.

Section RunnerOutput.

Variable float_of_text : string -> option float.

(** What [benchmark_query] returns carries one response per system, in the
    order LLM, LLM+RAG, RCE-LLM. *)
Lemma benchmark_query_systems q llm rag rce qr :
  Runner.benchmark_query float_of_text q llm rag rce = Ok qr ->
  map sr_system (systems qr) = systems_in_order.
Proof.
  unfold Runner.benchmark_query.
  destruct (Runner.query_tolerance float_of_text q) as [tol | e];
    cbn [bind]; [ | discriminate ].
  destruct (Runner.validate_response llm _ tol); cbn [bind]; [ | discriminate ].
  destruct (Runner.validate_response rag _ tol); cbn [bind]; [ | discriminate ].
  destruct (Runner.validate_response rce _ tol); cbn [bind]; [ | discriminate ].
  intros [= <-]. reflexivity.
Qed.

Lemma in_order_one_response (qr : query_result) :
  map sr_system (systems qr) = systems_in_order ->
  one_response_per_system qr = true.
Proof.
  unfold one_response_per_system, responses_of, systems_in_order.
  destruct (systems qr) as [ | [s1 r1 c1] [ | [s2 r2 c2] [ | [s3 r3 c3] [ | ? ?]]]];
    cbn [map sr_system]; try discriminate.
  intros [= -> -> ->]. reflexivity.
Qed.

Lemma benchmark_queries_one_response items qs :
  RunnerAggregate.benchmark_queries float_of_text items = Ok qs ->
  forallb one_response_per_system qs = true.
Proof.
  revert qs. induction items as [ | [q [[llm rag] rce]] rest IH ]; intros qs;
    cbn [RunnerAggregate.benchmark_queries].
  - intros [= <-]. reflexivity.
  - destruct (Runner.benchmark_query float_of_text q llm rag rce) as [qr | e] eqn:Hq;
      cbn [bind]; [ | discriminate ].
    destruct (RunnerAggregate.benchmark_queries float_of_text rest) as [others | e];
      cbn [bind]; [ | discriminate ].
    intros [= <-]. cbn [forallb].
    rewrite (IH others eq_refl), andb_true_r.
    apply in_order_one_response. exact (benchmark_query_systems _ _ _ _ _ Hq).
Qed.

(** A family the runner stores has the accuracy [compute_accuracy] gives on
    its queries, each of them with one response per system. *)
Lemma benchmark_task_family_output items fd :
  RunnerAggregate.benchmark_task_family float_of_text items = Ok (Some fd) ->
  accuracy fd = RunnerAggregate.compute_accuracy (queries fd)
  /\ forallb one_response_per_system (queries fd) = true.
Proof.
  unfold RunnerAggregate.benchmark_task_family.
  destruct items as [ | item rest ]; [ discriminate | ].
  destruct (RunnerAggregate.benchmark_queries float_of_text (item :: rest))
    as [qs | e] eqn:Hqs; cbn [bind]; [ | discriminate ].
  intros [= <-]. cbn [accuracy queries]. split; [ reflexivity | ].
  exact (benchmark_queries_one_response _ _ Hqs).
Qed.

(** So the accuracy a family was stored with is the one the analysis stage
    recomputes for it. *)
Lemma stored_accuracy_is_recomputed items fd system :
  RunnerAggregate.benchmark_task_family float_of_text items = Ok (Some fd) ->
  accuracy fd system = ae_accuracy (Analyzer.family_accuracy fd system).
Proof.
  intros Hfd. destruct (benchmark_task_family_output items fd Hfd) as [-> _].
  reflexivity.
Qed.

(** And it lies in [0,1]. *)
Lemma stored_accuracy_in_unit_interval items fd system :
  RunnerAggregate.benchmark_task_family float_of_text items = Ok (Some fd) ->
  in_unit_interval (accuracy fd system).
Proof.
  intros Hfd. destruct (benchmark_task_family_output items fd Hfd) as [-> Hone].
  apply compute_accuracy_in_unit_interval.
  exact (forallb_weaken _ _ _ one_response_is_at_most_one Hone).
Qed.

End RunnerOutput.

End Aggregate.

(** ** Claims on the aggregation stage *)

(** Claim C6.  The "consistent improvement" hypothesis is reported as
    supported exactly when, in every family of the per-family accuracy table,
    the accuracy of RCE-LLM is strictly above that of LLM and that of LLM+RAG;
    one family where it is not makes the result false. *)
Theorem consistent_improvement_iff
    (overall_accuracy : per_system accuracy_entry)
    (task_family_accuracy : by_family (per_system accuracy_entry)) :
  (H3_supported (Analyzer.validate_hypotheses overall_accuracy task_family_accuracy)
   = true
   <-> forall name acc, In (name, acc) task_family_accuracy ->
         ae_accuracy (acc LLM) < ae_accuracy (acc RCE_LLM)
         /\ ae_accuracy (acc LLM_RAG) < ae_accuracy (acc RCE_LLM))
  /\ ((exists name acc, In (name, acc) task_family_accuracy
         /\ ~ (ae_accuracy (acc LLM) < ae_accuracy (acc RCE_LLM)
               /\ ae_accuracy (acc LLM_RAG) < ae_accuracy (acc RCE_LLM))) ->
      H3_supported (Analyzer.validate_hypotheses overall_accuracy task_family_accuracy)
      = false).
Proof.
  assert (Hiff :
    H3_supported (Analyzer.validate_hypotheses overall_accuracy task_family_accuracy)
    = true
    <-> forall name acc, In (name, acc) task_family_accuracy ->
          ae_accuracy (acc LLM) < ae_accuracy (acc RCE_LLM)
          /\ ae_accuracy (acc LLM_RAG) < ae_accuracy (acc RCE_LLM)).
  { unfold Analyzer.validate_hypotheses. cbn [H3_supported].
    rewrite forallb_forall. split.
    - intros Hall name acc Hin.
      assert (Himp : Analyzer.family_improved acc = true).
      { apply Hall. apply in_map_iff. now exists (name, acc). }
      unfold Analyzer.family_improved in Himp.
      apply andb_true_iff in Himp as [Hllm Hrag].
      split; now apply Aggregate.Qgtb_lt.
    - intros Hall b Hb. apply in_map_iff in Hb as [[name acc] [<- Hin]].
      destruct (Hall name acc Hin) as [Hllm Hrag].
      cbn [snd]. unfold Analyzer.family_improved.
      apply andb_true_iff. split; now apply Aggregate.Qgtb_lt. }
  split; [ exact Hiff | ].
  intros [name [acc [Hin Hnot]]].
  apply not_true_is_false. intros Htrue.
  apply Hnot. exact (proj1 Hiff Htrue name acc Hin).
Qed.




(** Claim C10.  When every query carries exactly one response per system,
    the per-family accuracy the benchmark run computes is, for every system,
    the one the analysis stage recomputes for that family. *)
Theorem family_accuracy_agrees (task_families : by_family family_data) :
  every_query one_response_per_system task_families = true ->
  forall name fd,
    family_lookup name task_families = Some fd ->
    exists acc,
      family_lookup name (Analyzer.compute_task_family_accuracy task_families)
      = Some acc
      /\ forall system,
           RunnerAggregate.compute_accuracy (queries fd) system
           = ae_accuracy (acc system).
Proof.
  intros _ name fd Hfd.
  exists (Analyzer.family_accuracy fd). split.
  - rewrite Aggregate.lookup_task_family_accuracy, Hfd. reflexivity.
  - intros system. symmetry. apply Aggregate.family_accuracy_is_compute_accuracy.
Qed.

Lemma family_accuracy_agrees_witness :
  every_query one_response_per_system Sample.task_families = true
  /\ exists acc,
       family_lookup "f1_units"%string
         (Analyzer.compute_task_family_accuracy Sample.task_families) = Some acc
       /\ forall system,
            RunnerAggregate.compute_accuracy Sample.scored_queries system
            = ae_accuracy (acc system).
Proof.
  split; [ reflexivity | ].
  exact (family_accuracy_agrees Sample.task_families eq_refl "f1_units"%string
           {| total_queries := 2;
              queries := Sample.scored_queries;
              accuracy := RunnerAggregate.compute_accuracy Sample.scored_queries |}
           eq_refl).
Defined.

(** ** Claims on the correctness check *)

(** Claim C1, as the code has it.  For a query item flagged exact,
    [benchmark_query] scores with the default tolerance 0.05: its result is
    the one it gives for the same item without a tolerance entry, so the
    numeric path stays in use. *)
Theorem exact_flag_is_default_tolerance
    (float_of_text : string -> option float) (q : query)
    (llm rag rce : option string) :
  q_tolerance q = TolText "exact" ->
  Runner.query_tolerance float_of_text q = Ok 0.05%float
  /\ Runner.benchmark_query float_of_text q llm rag rce
     = Runner.benchmark_query float_of_text (without_tolerance q) llm rag rce.
Proof.
  intros Hexact.
  assert (Htol : Runner.query_tolerance float_of_text q = Ok 0.05%float).
  { unfold Runner.query_tolerance. rewrite Hexact. reflexivity. }
  split; [ exact Htol | ].
  unfold Runner.benchmark_query. rewrite Htol. reflexivity.
Qed.

Lemma exact_flag_is_default_tolerance_witness :
  q_tolerance Sample.flagged_exact = TolText "exact"
  /\ Runner.query_tolerance (fun _ => None) Sample.flagged_exact = Ok 0.05%float
  /\ Runner.benchmark_query (fun _ => None) Sample.flagged_exact
       (Some "about 103"%string) None (Some "100"%string)
     = Runner.benchmark_query (fun _ => None)
         (without_tolerance Sample.flagged_exact)
         (Some "about 103"%string) None (Some "100"%string).
Proof.
  split; [ reflexivity | ].
  apply (exact_flag_is_default_tolerance (fun _ => None) Sample.flagged_exact).
  reflexivity.
Defined.

(** Counterexample to claim C1 as stated: on an item flagged exact with
    expected answer "100", the response "about 103" is neither equal to "100"
    nor contains it, yet it is counted correct, through the numeric path. *)
Lemma exact_flag_keeps_numeric_path :
  exists qr,
    Runner.benchmark_query (fun _ => None) Sample.flagged_exact
      (Some "about 103"%string) None None = Ok qr
    /\ map correct (systems qr) = [true; false; false]
    /\ "about 103"%string <> "100"%string
    /\ PyStr.contains (normalized "100") (normalized "about 103") = false.
Proof.
  eexists. split; [ vm_compute; reflexivity | ].
  split; [ reflexivity | ]. split; [ discriminate | reflexivity ].
Qed.

(** Claim C3, as the code has it.  When the substring check fails, both
    texts hold a number and the expected number is positive, the response is
    correct exactly when [|response_val - expected_val| / |expected_val|] is
    at most the tolerance, whose default is 0.05.  For the expected answer
    9.8 the response "about 9.81 m/s^2" is correct at every tolerance, the
    substring check having succeeded. *)
Theorem numeric_tolerance_check :
  (forall (r : string) (expected : py_value) (tol : float)
          (rn en : string) (rrest erest : list string)
          (response_val expected_val : float),
     PyStr.contains (normalized (str expected)) (normalized r) = false ->
     PyStr.findall (normalized r) = rn :: rrest ->
     PyStr.findall (normalized (str expected)) = en :: erest ->
     PyFloat.float_of_numeral rn = Ok response_val ->
     PyFloat.float_of_numeral en = Ok expected_val ->
     (0 <? expected_val)%float = true ->
     Runner.validate_response (Some r) expected tol
     = Ok (abs (response_val - expected_val) / abs expected_val <=? tol)%float)
  /\ Runner.default_tolerance = 0.05%float
  /\ (forall tol,
        Runner.validate_response (Some "about 9.81 m/s^2"%string) (PyStr "9.8") tol
        = Ok true).
Proof.
  split; [ | split; [ reflexivity | intros tol; reflexivity ] ].
  intros r expected tol rn en rrest erest response_val expected_val
    Hsub Hrn Hen Hrv Hev Hpos.
  rewrite Scoring.validate_response_nonempty.
  - rewrite Hsub, Hrn, Hen, Hrv, Hev. cbn [bind].
    rewrite Scoring.truediv_by_positive by exact Hpos. cbn [bind].
    rewrite (Scoring.abs_of_positive expected_val Hpos).
    destruct (_ <=? tol)%float; reflexivity.
  - intros ->. rewrite Scoring.findall_empty in Hrn. discriminate.
Qed.

Lemma numeric_tolerance_check_witness :
  Runner.validate_response (Some "about 9.7 m/s^2"%string) (PyStr "9.8") 0.05%float
  = Ok true
  /\ Runner.validate_response (Some "about 9.7 m/s^2"%string) (PyStr "9.8") 0.001%float
     = Ok false.
Proof.
  split.
  - exact (proj1 numeric_tolerance_check "about 9.7 m/s^2"%string (PyStr "9.8")
             0.05%float "9.7"%string "9.8"%string ["2"%string] [] 9.7%float 9.8%float
             eq_refl eq_refl eq_refl eq_refl eq_refl eq_refl).
  - exact (proj1 numeric_tolerance_check "about 9.7 m/s^2"%string (PyStr "9.8")
             0.001%float "9.7"%string "9.8"%string ["2"%string] [] 9.7%float 9.8%float
             eq_refl eq_refl eq_refl eq_refl eq_refl eq_refl).
Defined.

(** Counterexample to claim C3 as stated: with expected answer "9.8" and
    tolerance 0.001 the response "about 9.81 m/s^2" is counted correct,
    because "9.8" occurs in it; the relative difference, above 0.001, is never
    looked at. *)
Lemma response_9_81_is_correct_at_0_001 :
  Runner.validate_response (Some "about 9.81 m/s^2"%string) (PyStr "9.8") 0.001%float
  = Ok true
  /\ (abs (9.81 - 9.8) / abs 9.8 <=? 0.001)%float = false.
Proof.
  split; reflexivity.
Qed.

(** Claim C5.  When the numeric comparison is reached and the expected
    number is zero, the response is scored as not correct: the
    [ZeroDivisionError] of the division stays inside [validate_response]. *)
Theorem zero_expected_is_not_correct
    (response : option string) (expected : py_value) (tol : float)
    (en : string) (erest : list string) (expected_val : float) :
  (forall r, response = Some r ->
     PyStr.contains (normalized (str expected)) (normalized r) = false) ->
  PyStr.findall (normalized (str expected)) = en :: erest ->
  PyFloat.float_of_numeral en = Ok expected_val ->
  (expected_val =? 0)%float = true ->
  Runner.validate_response response expected tol = Ok false.
Proof.
  intros Hsub Hen Hev Hzero.
  destruct response as [ r | ]; [ | reflexivity ].
  destruct (string_dec r "") as [ -> | Hr ]; [ reflexivity | ].
  rewrite Scoring.validate_response_nonempty by exact Hr.
  rewrite (Hsub r eq_refl), Hen.
  destruct (PyStr.findall (normalized r)) as [ | rn rrest ]; [ reflexivity | ].
  destruct (PyFloat.float_of_numeral rn) as [ response_val | e ] eqn:Hrv;
    cbn [bind].
  - rewrite Hev. cbn [bind].
    rewrite Scoring.truediv_by_zero by exact Hzero. reflexivity.
  - rewrite (Scoring.float_of_numeral_raises rn e Hrv). reflexivity.
Qed.
Lemma zero_expected_is_not_correct_witness :
  Runner.validate_response (Some "5"%string) (PyInt 0) 0.05%float = Ok false.
Proof.
  apply (zero_expected_is_not_correct (Some "5"%string) (PyInt 0) 0.05%float
           "0"%string [] 0%float).
  - intros r [= <-]. reflexivity.
  - reflexivity.
  - reflexivity.
  - reflexivity.
Defined.

(** Claim C9, as the code has it.  For a response that is not empty, if the
    lowercased, trimmed expected text occurs in the lowercased, trimmed
    response, the response is correct, whatever the tolerance.  An empty or
    absent response is not correct, whatever the expected answer. *)
Theorem substring_match_is_correct :
  (forall (r : string) (expected : py_value) (tol : float),
     r <> ""%string ->
     PyStr.contains (normalized (str expected)) (normalized r) = true ->
     Runner.validate_response (Some r) expected tol = Ok true)
  /\ (forall (expected : py_value) (tol : float),
        Runner.validate_response (Some ""%string) expected tol = Ok false
        /\ Runner.validate_response None expected tol = Ok false).
Proof.
  split.
  - intros r expected tol Hr Hsub.
    rewrite Scoring.validate_response_nonempty by exact Hr.
    now rewrite Hsub.
  - intros expected tol. split; reflexivity.
Qed.

Lemma substring_match_is_correct_witness :
  PyStr.contains (normalized (str (PyStr "Paris")))
    (normalized "The capital of France is Paris.") = true
  /\ forall tol,
       Runner.validate_response (Some "The capital of France is Paris."%string)
         (PyStr "Paris") tol = Ok true.
Proof.
  split; [ reflexivity | ].
  intros tol.
  apply (proj1 substring_match_is_correct "The capital of France is Paris."%string
           (PyStr "Paris") tol).
  - discriminate.
  - reflexivity.
Defined.

(** Counterexample to claim C9 as stated: the empty expected text occurs in
    the empty response, which is scored as not correct all the same. *)
Lemma empty_response_is_not_correct :
  PyStr.contains (normalized (str (PyStr ""))) (normalized "") = true
  /\ Runner.validate_response (Some ""%string) (PyStr "") 0.05%float = Ok false.
Proof.
  split; reflexivity.
Qed.

(** ** Claims on the effect size *)




(** Claim C4, as the code has it.  On the overall accuracies 0.600 and 0.933
    of the worked example, [compute_effect_sizes] gives an RCE-vs-LLM effect
    size that prints as 0.846, and labels it "large". *)
Theorem demo_effect_size_is_0846 :
  exists es,
    Analyzer.compute_effect_sizes Demo.overall_accuracy = Ok es
    /\ same_to_three_decimals (cohens_h_value (RCE_vs_LLM es)) (846 / 1000)
    /\ interpretation (RCE_vs_LLM es) = "large"%string.
Proof.
  unfold Analyzer.compute_effect_sizes. cbn [Demo.overall_accuracy ae_accuracy].
  replace (Q2R (933 # 1000)) with (933/1000)%R by (unfold Q2R; cbn; lra).
  replace (Q2R (600 # 1000)) with (600/1000)%R by (unfold Q2R; cbn; lra).
  replace (Q2R (700 # 1000)) with (700/1000)%R by (unfold Q2R; cbn; lra).
  rewrite !EffectSize.cohens_h_in_range by lra. cbn [bind].
  eexists. split; [ reflexivity | ].
  cbn [RCE_vs_LLM cohens_h_value interpretation].
  pose proof EffectSize.asin_sqrt_933 as Ha.
  pose proof EffectSize.asin_sqrt_600 as Hb.
  split.
  - unfold same_to_three_decimals. apply Rabs_le. lra.
  - apply EffectSize.interpret_large. lra.
Qed.

(** Counterexample to claim C4 as stated: the effect size computed from 0.600
    and 0.933 does not print as 0.789. *)
Lemma demo_effect_size_is_not_0789 :
  exists es,
    Analyzer.compute_effect_sizes Demo.overall_accuracy = Ok es
    /\ ~ same_to_three_decimals (cohens_h_value (RCE_vs_LLM es)) (789 / 1000).
Proof.
  destruct EffectSize.demo_effect_size as [es [Hes Hval]].
  exists es. split; [ exact Hes | ].
  rewrite Hval. unfold same_to_three_decimals.
  pose proof EffectSize.asin_sqrt_933 as Ha.
  pose proof EffectSize.asin_sqrt_600 as Hb.
  intros Habs.
  pose proof (Rle_abs (2 * asin (sqrt (933/1000)) - 2 * asin (sqrt (600/1000))
                       - 789 / 1000)%R) as Hle.
  lra.
Qed.

(** Claim C8.  For accuracies [p], [q] in [0,1], [cohens_h p q] is the
    opposite of [cohens_h q p], and [cohens_h p p] is 0. *)
Theorem cohens_h_antisymmetric (p q : R) :
  (0 <= p <= 1)%R -> (0 <= q <= 1)%R ->
  exists h,
    Analyzer.cohens_h p q = Ok h
    /\ Analyzer.cohens_h q p = Ok (- h)%R
    /\ Analyzer.cohens_h p p = Ok 0%R.
Proof.
  intros Hp Hq.
  exists (2 * asin (sqrt p) - 2 * asin (sqrt q))%R.
  rewrite !EffectSize.cohens_h_in_range by assumption.
  repeat split; f_equal; ring.
Qed.

Lemma cohens_h_antisymmetric_witness :
  exists h,
    Analyzer.cohens_h (1 / 4) (1 / 2) = Ok h
    /\ Analyzer.cohens_h (1 / 2) (1 / 4) = Ok (- h)%R
    /\ Analyzer.cohens_h (1 / 4) (1 / 4) = Ok 0%R.
Proof.
  apply (cohens_h_antisymmetric (1 / 4) (1 / 2)); lra.
Defined.

(** * Further properties *)

(** ** Of the correctness check *)

Module ScoringFacts.

Import PyStr PyFloat Runner.
Local Open Scope string_scope.

Lemma truediv_raises (x y : float) (e : py_exn) :
  truediv x y = Raise e -> e = ZeroDivisionError.
Proof.
  unfold truediv. destruct (y =? 0)%float; [ now intros [= <-] | discriminate ].
Qed.

Lemma validate_response_returns (response : option string)
    (expected : py_value) (tol : float) :
  exists b, validate_response response expected tol = Ok b.
Proof.
  destruct response as [ r | ]; [ | now exists false ].
  destruct (string_dec r "") as [ -> | Hr ]; [ now exists false | ].
  rewrite Scoring.validate_response_nonempty by exact Hr.
  destruct (contains _ _); [ now exists true | ].
  destruct (findall (normalized r)) as [ | rn rrest ]; [ now exists false | ].
  destruct (findall (normalized (str expected))) as [ | en erest ];
    [ now exists false | ].
  destruct (float_of_numeral rn) as [ rv | e ] eqn:Hrv; cbn [bind].
  2: { rewrite (Scoring.float_of_numeral_raises rn e Hrv). now exists false. }
  destruct (float_of_numeral en) as [ ev | e ] eqn:Hev; cbn [bind].
  2: { rewrite (Scoring.float_of_numeral_raises en e Hev). now exists false. }
  destruct (truediv (abs (rv - ev)) ev) as [ ratio | e ] eqn:Hdiv; cbn [bind].
  2: { rewrite (truediv_raises _ _ e Hdiv). now exists false. }
  destruct (ratio <=? tol)%float; [ now exists true | now exists false ].
Qed.

(** *** Texts without digits *)

Lemma isdigit_lower_char (c : ascii) : isdigit (lower_char c) = isdigit c.
Proof.
  destruct c as [[] [] [] [] [] [] [] []]; reflexivity.
Qed.

Lemma isspace_lower_char (c : ascii) : isspace (lower_char c) = isspace c.
Proof.
  destruct c as [[] [] [] [] [] [] [] []]; reflexivity.
Qed.

Lemma lower_char_idempotent (c : ascii) : lower_char (lower_char c) = lower_char c.
Proof.
  destruct c as [[] [] [] [] [] [] [] []]; reflexivity.
Qed.

Lemma has_digit_lower (s : string) : has_digit (lower s) = has_digit s.
Proof.
  induction s as [ | c r IH ]; [ reflexivity | ].
  cbn [lower has_digit]. now rewrite isdigit_lower_char, IH.
Qed.

Lemma has_digit_lstrip (s : string) :
  has_digit s = false -> has_digit (lstrip s) = false.
Proof.
  induction s as [ | c r IH ]; [ reflexivity | ].
  cbn [lstrip]. destruct (isspace c); [ | trivial ].
  cbn [has_digit]. intros H. apply orb_false_iff in H as [_ H]. now apply IH.
Qed.

Lemma has_digit_rstrip (s : string) :
  has_digit s = false -> has_digit (rstrip s) = false.
Proof.
  induction s as [ | c r IH ]; [ reflexivity | ].
  cbn [has_digit rstrip]. intros H. apply orb_false_iff in H as [Hc Hr].
  specialize (IH Hr). destruct (rstrip r) as [ | c' r' ].
  - destruct (isspace c); [ reflexivity | ]. cbn [has_digit]. now rewrite Hc.
  - cbn [has_digit] in *. now rewrite Hc.
Qed.

Lemma has_digit_normalized (s : string) :
  has_digit s = false -> has_digit (normalized s) = false.
Proof.
  intros H. unfold normalized, strip.
  apply has_digit_rstrip, has_digit_lstrip. now rewrite has_digit_lower.
Qed.

Lemma span_digits_no_digit (s : string) :
  has_digit s = false -> fst (span_digits s) = "".
Proof.
  destruct s as [ | c r ]; [ reflexivity | ].
  cbn [has_digit span_digits]. intros H. apply orb_false_iff in H as [-> _].
  reflexivity.
Qed.

Lemma match_number_no_digit (s : string) :
  has_digit s = false -> match_number s = None.
Proof.
  intros H. unfold match_number.
  assert (Hs1 : has_digit (snd (optional_char "-" s)) = false).
  { destruct (Scoring.optional_char_cases "-" s) as [[r [-> ->]] | ->];
      cbn [snd]; [ | exact H ].
    cbn [has_digit] in H. now apply orb_false_iff in H. }
  destruct (optional_char "-" s) as [sign s1]. cbn [snd] in Hs1.
  pose proof (span_digits_no_digit s1 Hs1) as Hint.
  destruct (span_digits s1) as [int_part s2]. cbn [fst] in Hint. now subst.
Qed.

Lemma findall_no_digit (s : string) : has_digit s = false -> findall s = [].
Proof.
  unfold findall. generalize 0%nat.
  induction s as [ | c r IH ]; intros skip H; [ reflexivity | ].
  cbn [findall_from]. assert (Hr : has_digit r = false).
  { cbn [has_digit] in H. now apply orb_false_iff in H. }
  destruct skip; [ | now apply IH ].
  rewrite (match_number_no_digit _ H). now apply IH.
Qed.

(** *** The order of binary64 values *)

Lemma SFleb_trans (x y z : spec_float) :
  SFleb x y = true -> SFleb y z = true -> SFleb x z = true.
Proof.
  unfold SFleb.
  destruct x as [ [ | ] | [ | ] | | [ | ] mx ex ],
           y as [ [ | ] | [ | ] | | [ | ] my ey ],
           z as [ [ | ] | [ | ] | | [ | ] mz ez ];
    cbn [SFcompare]; try discriminate; try reflexivity.
  all: destruct (Z.compare_spec ex ey), (Z.compare_spec ey ez),
         (Z.compare_spec ex ez); try discriminate; try reflexivity; try lia.
  all: subst; rewrite <- ?Pos.compare_cont_spec; cbn [Pos.switch_Eq] in *;
       fold (Pos.compare mx my) (Pos.compare my mz) (Pos.compare mx mz).
  all: destruct (Pos.compare_spec mx my), (Pos.compare_spec my mz),
         (Pos.compare_spec mx mz); cbn; try discriminate; try reflexivity; lia.
Qed.

Lemma leb_trans (x y z : float) :
  (x <=? y)%float = true -> (y <=? z)%float = true -> (x <=? z)%float = true.
Proof.
  rewrite !leb_spec. apply SFleb_trans.
Qed.

(** *** Normal forms *)

Lemma lower_idempotent (s : string) : lower (lower s) = lower s.
Proof.
  induction s as [ | c r IH ]; [ reflexivity | ].
  cbn [lower]. now rewrite lower_char_idempotent, IH.
Qed.

Lemma lower_lstrip (s : string) : lower (lstrip s) = lstrip (lower s).
Proof.
  induction s as [ | c r IH ]; [ reflexivity | ].
  cbn [lstrip lower]. rewrite isspace_lower_char.
  destruct (isspace c); [ exact IH | reflexivity ].
Qed.

Lemma lower_rstrip (s : string) : lower (rstrip s) = rstrip (lower s).
Proof.
  induction s as [ | c r IH ]; [ reflexivity | ].
  cbn [rstrip lower]. rewrite <- IH, isspace_lower_char.
  destruct (rstrip r) as [ | c' r' ]; cbn [lower].
  - destruct (isspace c); reflexivity.
  - reflexivity.
Qed.

Lemma lstrip_idempotent (s : string) : lstrip (lstrip s) = lstrip s.
Proof.
  induction s as [ | c r IH ]; [ reflexivity | ].
  cbn [lstrip]. destruct (isspace c) eqn:Hc; [ exact IH | ].
  cbn [lstrip]. now rewrite Hc.
Qed.

Lemma rstrip_idempotent (s : string) : rstrip (rstrip s) = rstrip s.
Proof.
  induction s as [ | c r IH ]; [ reflexivity | ].
  cbn [rstrip]. destruct (rstrip r) as [ | c' r' ] eqn:Hr.
  - destruct (isspace c) eqn:Hc; [ reflexivity | ].
    cbn [rstrip]. now rewrite Hc.
  - cbn [rstrip] in *. now rewrite IH.
Qed.

(** What [rstrip] leaves starts like its argument. *)
Lemma lstrip_rstrip (s : string) : lstrip (rstrip s) = rstrip (lstrip s).
Proof.
  induction s as [ | c r IH ]; [ reflexivity | ].
  cbn [lstrip rstrip]. destruct (isspace c) eqn:Hc.
  - rewrite <- IH. destruct (rstrip r) as [ | c' r' ].
    + reflexivity.
    + cbn [lstrip]. now rewrite Hc.
  - cbn [rstrip]. destruct (rstrip r) as [ | c' r' ]; cbn [lstrip]; now rewrite Hc.
Qed.

Lemma strip_idempotent (s : string) : strip (strip s) = strip s.
Proof.
  unfold strip.
  now rewrite lstrip_rstrip, lstrip_idempotent, rstrip_idempotent.
Qed.

Lemma normalized_idempotent (s : string) : normalized (normalized s) = normalized s.
Proof.
  unfold normalized, strip.
  rewrite lower_rstrip, lower_lstrip, lower_idempotent.
  fold (strip (lower s)). fold (strip (strip (lower s))).
  apply strip_idempotent.
Qed.

End ScoringFacts.

Module CallFacts.

Import Runner RunnerCalls.
Local Open Scope string_scope.

Lemma query_tolerance_raises (f : string -> option float) (q : query) (e : py_exn) :
  query_tolerance f q = Raise e <->
  e = ValueError
  /\ exists s, q_tolerance q = TolText s /\ s <> "exact" /\ f s = None.
Proof.
  unfold query_tolerance. destruct (q_tolerance q) as [ | t | s ].
  - split; [ discriminate | intros [_ [s [[=] _]]] ].
  - split; [ discriminate | intros [_ [s [[=] _]]] ].
  - destruct (String.eqb s "exact") eqn:Hs.
    + apply String.eqb_eq in Hs as ->.
      split; [ discriminate | intros [_ [s [[= <-] [Hne _]]]]; now elim Hne ].
    + apply String.eqb_neq in Hs. destruct (f s) as [ t | ] eqn:Hf.
      * split; [ discriminate | intros [_ [s' [[= <-] [_ Hnone]]]]; congruence ].
      * split.
        -- intros [= <-]. split; [ reflexivity | now exists s ].
        -- intros [-> _]. reflexivity.
Qed.

Lemma benchmark_query_shape (f : string -> option float) (q : query)
    (a b c : option string) (tol : float) :
  query_tolerance f q = Ok tol ->
  exists ca cb cc,
    validate_response a (q_expected_answer q) tol = Ok ca
    /\ validate_response b (q_expected_answer q) tol = Ok cb
    /\ validate_response c (q_expected_answer q) tol = Ok cc
    /\ benchmark_query f q a b c
       = Ok {| query_id := q_id q;
               expected_answer := q_expected_answer q;
               systems :=
                 [ {| sr_system := LLM; response := a; correct := ca |};
                   {| sr_system := LLM_RAG; response := b; correct := cb |};
                   {| sr_system := RCE_LLM; response := c; correct := cc |} ] |}.
Proof.
  intros Htol.
  destruct (ScoringFacts.validate_response_returns a (q_expected_answer q) tol) as [ca Ha].
  destruct (ScoringFacts.validate_response_returns b (q_expected_answer q) tol) as [cb Hb].
  destruct (ScoringFacts.validate_response_returns c (q_expected_answer q) tol) as [cc Hc].
  exists ca, cb, cc. repeat split; try assumption.
  unfold benchmark_query. rewrite Htol. cbn [bind].
  rewrite Ha. cbn [bind]. rewrite Hb. cbn [bind]. rewrite Hc. reflexivity.
Qed.

End CallFacts.


(** X2.  When the response or the expected answer holds no digit, the
    verdict on a response that is not empty is the substring test alone,
    whatever the tolerance. *)
Theorem digitless_text_is_scored_by_substring
    (r : string) (expected : py_value) (tol : float) :
  r <> ""%string ->
  has_digit r = false \/ has_digit (str expected) = false ->
  Runner.validate_response (Some r) expected tol
  = Ok (PyStr.contains (normalized (str expected)) (normalized r)).
Proof.
  intros Hr Hdigit.
  rewrite Scoring.validate_response_nonempty by exact Hr.
  destruct (PyStr.contains _ _); [ reflexivity | ].
  destruct Hdigit as [H | H].
  - rewrite (ScoringFacts.findall_no_digit _ (ScoringFacts.has_digit_normalized r H)).
    reflexivity.
  - rewrite (ScoringFacts.findall_no_digit _
               (ScoringFacts.has_digit_normalized (str expected) H)).
    destruct (PyStr.findall (normalized r)); reflexivity.
Qed.

Lemma digitless_text_is_scored_by_substring_witness :
  Runner.validate_response (Some "It was John."%string) (PyStr "Mary") 0.05%float
  = Ok false.
Proof.
  apply (digitless_text_is_scored_by_substring "It was John."%string (PyStr "Mary")
           0.05%float).
  - discriminate.
  - left. reflexivity.
Defined.

(** X3.  A larger tolerance never withdraws a verdict: a response correct
    at [tol] is correct at every [tol'] with [tol <= tol']. *)
Theorem larger_tolerance_keeps_correct
    (response : option string) (expected : py_value) (tol tol' : float) :
  (tol <=? tol')%float = true ->
  Runner.validate_response response expected tol = Ok true ->
  Runner.validate_response response expected tol' = Ok true.
Proof.
  intros Hle.
  destruct response as [ r | ]; [ | discriminate ].
  destruct (string_dec r ""%string) as [ -> | Hr ]; [ discriminate | ].
  rewrite !Scoring.validate_response_nonempty by exact Hr.
  destruct (PyStr.contains _ _); [ reflexivity | ].
  destruct (PyStr.findall (normalized r)) as [ | rn rrest ]; [ discriminate | ].
  destruct (PyStr.findall (normalized (str expected))) as [ | en erest ];
    [ discriminate | ].
  destruct (PyFloat.float_of_numeral rn) as [ rv | e1 ]; cbn [bind].
  2: { destruct e1; discriminate. }
  destruct (PyFloat.float_of_numeral en) as [ ev | e2 ]; cbn [bind].
  2: { destruct e2; discriminate. }
  destruct (PyFloat.truediv (abs (rv - ev)) ev) as [ ratio | e3 ]; cbn [bind].
  2: { destruct e3; discriminate. }
  destruct (ratio <=? tol)%float eqn:Hratio; [ | discriminate ].
  now rewrite (ScoringFacts.leb_trans ratio tol tol' Hratio Hle).
Qed.

Lemma larger_tolerance_keeps_correct_witness :
  (0.05 <=? 0.1)%float = true
  /\ Runner.validate_response (Some "about 9.7 m/s^2"%string) (PyStr "9.8") 0.1%float
     = Ok true.
Proof.
  split; [ reflexivity | ].
  apply (larger_tolerance_keeps_correct (Some "about 9.7 m/s^2"%string)
           (PyStr "9.8") 0.05%float 0.1%float); reflexivity.
Defined.

(** X4.  Letter case and surrounding white space play no part: scoring the
    lowercased, trimmed texts gives the verdict of the texts themselves, as
    long as the trimmed response is not empty. *)
Theorem normal_forms_are_scored_alike
    (r expected : string) (tol : float) :
  normalized r <> ""%string ->
  Runner.validate_response (Some (normalized r)) (PyStr (normalized expected)) tol
  = Runner.validate_response (Some r) (PyStr expected) tol.
Proof.
  intros Hnorm.
  assert (Hr : r <> ""%string) by (intros ->; now apply Hnorm).
  rewrite !Scoring.validate_response_nonempty by assumption.
  cbn [str]. now rewrite !ScoringFacts.normalized_idempotent.
Qed.

Lemma normal_forms_are_scored_alike_witness :
  Runner.validate_response (Some "the capital is paris."%string) (PyStr "paris") 0.05%float
  = Runner.validate_response (Some "  The capital is PARIS. "%string) (PyStr " Paris") 0.05%float.
Proof.
  apply (normal_forms_are_scored_alike "  The capital is PARIS. "%string " Paris"%string
           0.05%float).
  discriminate.
Defined.



(** X6.  A call that fails (an exception of the call, the timeout among
    them, an HTTP status other than 200, or a body that is no JSON) is
    recorded with no response, [success] false and an error text; and every
    entry without a response is flagged as not correct in the query
    result. *)
Theorem failed_call_is_incorrect
    (float_of_text : string -> option float) (q : query)
    (llm rag : process_outcome) (rce : http_outcome) (qr : query_result) :
  RunnerCalls.benchmark_query_calls float_of_text q llm rag rce = Ok qr ->
  Forall2
    (fun call sr =>
       sr_system sr = cr_system call
       /\ response sr = cr_response call
       /\ (cr_response call = None -> correct sr = false))
    [ RunnerCalls.query_llm_baseline llm;
      RunnerCalls.query_llm_rag_baseline rag;
      RunnerCalls.query_rce_llm rce ]
    (systems qr)
  /\ (forall call,
        (exists message, llm = ProcessError message
                         /\ call = RunnerCalls.query_llm_baseline llm)
        \/ (exists message, rag = ProcessError message
                            /\ call = RunnerCalls.query_llm_rag_baseline rag)
        \/ ((exists message, rce = RequestError message)
            \/ (exists status text body,
                  rce = Replied status text body /\ status <> 200%Z)
            \/ (exists text message, rce = Replied 200 text (NotJson message)))
           /\ call = RunnerCalls.query_rce_llm rce ->
        cr_response call = None /\ cr_success call = false
        /\ cr_error call <> None).
Proof.
  intros Hq. unfold RunnerCalls.benchmark_query_calls in Hq.
  destruct (Runner.query_tolerance float_of_text q) as [ tol | e ] eqn:Htol.
  2: { unfold Runner.benchmark_query in Hq. rewrite Htol in Hq. discriminate. }
  destruct (CallFacts.benchmark_query_shape float_of_text q
              (cr_response (RunnerCalls.query_llm_baseline llm))
              (cr_response (RunnerCalls.query_llm_rag_baseline rag))
              (cr_response (RunnerCalls.query_rce_llm rce)) tol Htol)
    as [ca [cb [cc [Ha [Hb [Hc Hshape]]]]]].
  rewrite Hshape in Hq. injection Hq as <-. cbn [systems].
  split.
  - apply Forall2_cons; [ | apply Forall2_cons; [ | apply Forall2_cons;
      [ | apply Forall2_nil ] ] ]; cbn [sr_system response correct];
      (split; [ | split; [ reflexivity | ] ]).
    + now destruct llm.
    + intros Hnone. rewrite Hnone in Ha. now injection Ha.
    + now destruct rag.
    + intros Hnone. rewrite Hnone in Hb. now injection Hb.
    + destruct rce as [ status text [ answer | message ] | message ]; cbn;
        try destruct (status =? 200)%Z; reflexivity.
    + intros Hnone. rewrite Hnone in Hc. now injection Hc.
  - intros call [[m [-> ->]] | [[m [-> ->]] | [Hfail ->]]].
    + cbn. repeat split. discriminate.
    + cbn. repeat split. discriminate.
    + destruct Hfail as [[m ->] | [[st [tx [bd [-> Hne]]]] | [tx [m ->]]]]; cbn.
      * repeat split. discriminate.
      * apply Z.eqb_neq in Hne. rewrite Hne. cbn. repeat split. discriminate.
      * repeat split. discriminate.
Qed.

Lemma failed_call_is_incorrect_witness :
  exists qr,
    RunnerCalls.benchmark_query_calls (fun _ => None) Sample.flagged_exact
      (ProcessError "timed out") (Exited " 100 " 0 "") (Replied 503 "busy" (NotJson ""))
    = Ok qr
    /\ Forall2
         (fun call sr =>
            sr_system sr = cr_system call
            /\ response sr = cr_response call
            /\ (cr_response call = None -> correct sr = false))
         [ RunnerCalls.query_llm_baseline (ProcessError "timed out");
           RunnerCalls.query_llm_rag_baseline (Exited " 100 " 0 "");
           RunnerCalls.query_rce_llm (Replied 503 "busy" (NotJson "")) ]
         (systems qr).
Proof.
  eexists. split; [ reflexivity | ].
  exact (proj1 (failed_call_is_incorrect (fun _ => None)
                  Sample.flagged_exact (ProcessError "timed out")
                  (Exited " 100 " 0 "") (Replied 503 "busy" (NotJson "")) _ eq_refl)).
Defined.

(** X7.  The exit status of an Ollama process plays no part in the verdict:
    a process that exits with a status other than 0 is recorded with
    [success] false, and still counts as correct when its output, which is
    not empty once trimmed, contains the expected answer. *)
Theorem failed_process_can_be_correct
    (float_of_text : string -> option float) (q : query)
    (stdout stderr : string) (returncode : Z)
    (rag : process_outcome) (rce : http_outcome) (qr : query_result) :
  returncode <> 0%Z ->
  PyStr.strip stdout <> ""%string ->
  PyStr.contains (normalized (str (q_expected_answer q)))
    (normalized (PyStr.strip stdout)) = true ->
  RunnerCalls.benchmark_query_calls float_of_text q
    (Exited stdout returncode stderr) rag rce = Ok qr ->
  cr_success (RunnerCalls.query_llm_baseline (Exited stdout returncode stderr)) = false
  /\ exists sr rest, systems qr = sr :: rest
                     /\ sr_system sr = LLM /\ correct sr = true.
Proof.
  intros Hrc Hout Hsub Hq. split.
  - cbn. now apply Z.eqb_neq.
  - unfold RunnerCalls.benchmark_query_calls in Hq.
    destruct (Runner.query_tolerance float_of_text q) as [ tol | e ] eqn:Htol.
    2: { unfold Runner.benchmark_query in Hq. rewrite Htol in Hq. discriminate. }
    destruct (CallFacts.benchmark_query_shape float_of_text q
                (cr_response (RunnerCalls.query_llm_baseline
                                (Exited stdout returncode stderr)))
                (cr_response (RunnerCalls.query_llm_rag_baseline rag))
                (cr_response (RunnerCalls.query_rce_llm rce)) tol Htol)
      as [ca [cb [cc [Ha [_ [_ Hshape]]]]]].
    rewrite Hshape in Hq. injection Hq as <-. cbn [systems].
    eexists. eexists. split; [ reflexivity | ]. cbn [sr_system correct].
    split; [ reflexivity | ].
    cbn [RunnerCalls.query_llm_baseline RunnerCalls.ollama_call cr_response] in Ha.
    rewrite Scoring.validate_response_nonempty in Ha by exact Hout.
    rewrite Hsub in Ha. now injection Ha.
Qed.

Lemma failed_process_can_be_correct_witness :
  exists qr,
    RunnerCalls.benchmark_query_calls (fun _ => None) Sample.flagged_exact
      (Exited "The answer is 100" 1 "model unloaded") (ProcessError "timed out")
      (RequestError "refused") = Ok qr
    /\ cr_success (RunnerCalls.query_llm_baseline
                     (Exited "The answer is 100" 1 "model unloaded")) = false
    /\ exists sr rest, systems qr = sr :: rest
                       /\ sr_system sr = LLM /\ correct sr = true.
Proof.
  eexists. split; [ reflexivity | ].
  apply (failed_process_can_be_correct (fun _ => None) Sample.flagged_exact
           "The answer is 100" "model unloaded" 1
           (ProcessError "timed out") (RequestError "refused")).
  - discriminate.
  - discriminate.
  - reflexivity.
  - reflexivity.
Defined.

(** ** Of the aggregation *)

Module PoolFacts.

Lemma sum_nil : list_sum [] = 0%nat.
Proof. reflexivity. Qed.

Lemma sum_cons (n : nat) (l : list nat) : list_sum (n :: l) = (n + list_sum l)%nat.
Proof. reflexivity. Qed.

Lemma tally_correct_queries (s : system) (qs : list query_result) :
  forall acc,
    fold_left tally_correct qs acc s
    = (acc s + list_sum (map (correct_of s) qs))%nat.
Proof.
  induction qs as [ | qr rest IH ]; intros acc; cbn [fold_left map]; rewrite ?sum_nil, ?sum_cons.
  - lia.
  - rewrite IH, Aggregate.tally_correct_at. lia.
Qed.

Lemma tally_overall_at (s : system) (srs : list system_result) :
  forall st,
    fst (fold_left Analyzer.tally_overall srs st) s
    = (fst st s
       + List.length (filter (fun sr => system_eqb (sr_system sr) s && correct sr) srs))%nat
    /\ snd (fold_left Analyzer.tally_overall srs st) s
       = (snd st s
          + List.length (filter (fun sr => system_eqb (sr_system sr) s) srs))%nat.
Proof.
  induction srs as [ | sr rest IH ]; intros st; cbn [fold_left filter].
  - cbn. lia.
  - destruct (IH (Analyzer.tally_overall st sr)) as [-> ->].
    destruct st as [c t]. unfold Analyzer.tally_overall.
    destruct (correct sr); cbn [fst snd]; rewrite ?Aggregate.incr_at;
      rewrite ?andb_true_r, ?andb_false_r;
      destruct (system_eqb (sr_system sr) s); cbn [List.length]; lia.
Qed.

Lemma tally_overall_queries (s : system) (qs : list query_result) :
  forall st,
    fst (fold_left Analyzer.tally_overall_query qs st) s
    = (fst st s + list_sum (map (correct_of s) qs))%nat
    /\ snd (fold_left Analyzer.tally_overall_query qs st) s
       = (snd st s + list_sum (map (responses_of s) qs))%nat.
Proof.
  induction qs as [ | qr rest IH ]; intros st; cbn [fold_left map]; rewrite ?sum_nil, ?sum_cons.
  - lia.
  - destruct (IH (Analyzer.tally_overall_query st qr)) as [-> ->].
    unfold Analyzer.tally_overall_query.
    destruct (tally_overall_at s (systems qr) st) as [-> ->].
    unfold correct_of, responses_of. lia.
Qed.

Lemma tally_overall_families (s : system) (tf : by_family family_data) :
  forall st,
    fst (fold_left Analyzer.tally_overall_family tf st) s
    = (fst st s
       + family_sum (fun fd => list_sum (map (correct_of s) (queries fd))) tf)%nat
    /\ snd (fold_left Analyzer.tally_overall_family tf st) s
       = (snd st s
          + family_sum (fun fd => list_sum (map (responses_of s) (queries fd))) tf)%nat.
Proof.
  unfold family_sum.
  induction tf as [ | family rest IH ]; intros st; cbn [fold_left map]; rewrite ?sum_nil, ?sum_cons.
  - lia.
  - destruct (IH (Analyzer.tally_overall_family st family)) as [-> ->].
    unfold Analyzer.tally_overall_family.
    destruct (tally_overall_queries s (queries (snd family)) st) as [-> ->].
    lia.
Qed.

Lemma overall_counters (s : system) (tf : by_family family_data) :
  ae_correct (Analyzer.compute_overall_accuracy tf s)
  = family_sum (fun fd => list_sum (map (correct_of s) (queries fd))) tf
  /\ ae_total (Analyzer.compute_overall_accuracy tf s)
     = family_sum (fun fd => list_sum (map (responses_of s) (queries fd))) tf.
Proof.
  unfold Analyzer.compute_overall_accuracy.
  pose proof (tally_overall_families s tf (zero_counts, zero_counts)) as [Hc Ht].
  destruct (fold_left Analyzer.tally_overall_family tf (zero_counts, zero_counts))
    as [c t].
  cbn [fst snd ae_correct ae_total] in *. rewrite Hc, Ht. cbn. lia.
Qed.

Lemma family_correct (s : system) (fd : family_data) :
  ae_correct (Analyzer.family_accuracy fd s)
  = list_sum (map (correct_of s) (queries fd)).
Proof.
  unfold Analyzer.family_accuracy. cbn [ae_correct].
  rewrite tally_correct_queries. cbn. lia.
Qed.

Lemma one_response_at (s : system) (qr : query_result) :
  one_response_per_system qr = true -> responses_of s qr = 1%nat.
Proof.
  unfold one_response_per_system, systems_in_order. cbn [forallb].
  rewrite !andb_true_iff, !Nat.eqb_eq. intros [H1 [H2 [H3 _]]].
  destruct s; assumption.
Qed.

Lemma responses_sum (s : system) (qs : list query_result) :
  forallb one_response_per_system qs = true ->
  list_sum (map (responses_of s) qs) = List.length qs.
Proof.
  induction qs as [ | qr rest IH ]; [ reflexivity | ].
  cbn [forallb map List.length]; rewrite ?sum_cons. intros H.
  apply andb_true_iff in H as [Hqr Hrest].
  rewrite (one_response_at s qr Hqr), (IH Hrest). reflexivity.
Qed.

Lemma family_sum_ext {A : Type} (f g : A -> nat) (d : by_family A) :
  (forall name v, In (name, v) d -> f v = g v) ->
  family_sum f d = family_sum g d.
Proof.
  unfold family_sum. induction d as [ | [k v] rest IH ]; intros H; [ reflexivity | ].
  cbn [map snd]; rewrite ?sum_cons. rewrite (H k v) by now left.
  rewrite IH; [ reflexivity | ]. intros name w Hin. apply (H name w). now right.
Qed.

Lemma list_sum_permutation (l l' : list nat) :
  Permutation l l' -> list_sum l = list_sum l'.
Proof.
  induction 1; rewrite ?sum_nil, ?sum_cons; lia.
Qed.

End PoolFacts.

(** X8.  The overall counters pool the families: for every system the
    overall [correct] is the sum of the [correct] of the families, and, when
    every query carries one response per system, the overall [total] is the
    sum of their [total], the number of all queries. *)
Theorem overall_counters_pool_the_families
    (task_families : by_family family_data) (system : system) :
  ae_correct (Analyzer.compute_overall_accuracy task_families system)
  = family_sum (fun fd => ae_correct (Analyzer.family_accuracy fd system))
      task_families
  /\ (every_query one_response_per_system task_families = true ->
      ae_total (Analyzer.compute_overall_accuracy task_families system)
      = family_sum (fun fd => ae_total (Analyzer.family_accuracy fd system))
          task_families
      /\ ae_total (Analyzer.compute_overall_accuracy task_families system)
         = family_sum (fun fd => List.length (queries fd)) task_families).
Proof.
  destruct (PoolFacts.overall_counters system task_families) as [Hc Ht].
  split.
  - rewrite Hc. apply PoolFacts.family_sum_ext. intros name fd _.
    symmetry. apply PoolFacts.family_correct.
  - intros Hone.
    assert (Hlen : ae_total (Analyzer.compute_overall_accuracy task_families system)
                   = family_sum (fun fd => List.length (queries fd)) task_families).
    { rewrite Ht. apply PoolFacts.family_sum_ext. intros name fd Hin.
      apply PoolFacts.responses_sum.
      exact (Aggregate.every_query_in _ _ _ _ Hone Hin). }
    split; exact Hlen.
Qed.

Lemma overall_counters_pool_the_families_witness :
  every_query one_response_per_system Sample.task_families = true
  /\ ae_total (Analyzer.compute_overall_accuracy Sample.task_families RCE_LLM)
     = family_sum (fun fd => List.length (queries fd)) Sample.task_families.
Proof.
  split; [ reflexivity | ].
  apply (proj2 (overall_counters_pool_the_families Sample.task_families RCE_LLM)).
  reflexivity.
Defined.

(** X9.  The order of the results plays no part: reordering the queries of a
    family leaves its accuracies unchanged, and reordering the families
    leaves the overall counters and accuracies unchanged. *)
Theorem accuracies_ignore_order :
  (forall (queries queries' : list query_result) (system : system),
     Permutation queries queries' ->
     RunnerAggregate.compute_accuracy queries system
     = RunnerAggregate.compute_accuracy queries' system)
  /\ (forall (task_families task_families' : by_family family_data) (system : system),
        Permutation task_families task_families' ->
        Analyzer.compute_overall_accuracy task_families system
        = Analyzer.compute_overall_accuracy task_families' system).
Proof.
  split.
  - intros qs qs' s Hperm. unfold RunnerAggregate.compute_accuracy.
    rewrite !PoolFacts.tally_correct_queries.
    rewrite (Permutation_length Hperm).
    rewrite (PoolFacts.list_sum_permutation _ _
               (Permutation_map (correct_of s) Hperm)).
    reflexivity.
  - intros tf tf' s Hperm.
    assert (Hc : ae_correct (Analyzer.compute_overall_accuracy tf s)
                 = ae_correct (Analyzer.compute_overall_accuracy tf' s)).
    { rewrite (proj1 (PoolFacts.overall_counters s tf)),
              (proj1 (PoolFacts.overall_counters s tf')).
      unfold family_sum. apply PoolFacts.list_sum_permutation.
      now apply Permutation_map. }
    assert (Ht : ae_total (Analyzer.compute_overall_accuracy tf s)
                 = ae_total (Analyzer.compute_overall_accuracy tf' s)).
    { rewrite (proj2 (PoolFacts.overall_counters s tf)),
              (proj2 (PoolFacts.overall_counters s tf')).
      unfold family_sum. apply PoolFacts.list_sum_permutation.
      now apply Permutation_map. }
    revert Hc Ht. unfold Analyzer.compute_overall_accuracy.
    destruct (fold_left Analyzer.tally_overall_family tf (zero_counts, zero_counts))
      as [c t].
    destruct (fold_left Analyzer.tally_overall_family tf' (zero_counts, zero_counts))
      as [c' t'].
    cbn [ae_correct ae_total]. intros -> ->. reflexivity.
Qed.

Lemma accuracies_ignore_order_witness :
  RunnerAggregate.compute_accuracy Sample.scored_queries RCE_LLM
  = RunnerAggregate.compute_accuracy (rev Sample.scored_queries) RCE_LLM.
Proof.
  apply (proj1 accuracies_ignore_order). apply Permutation_rev.
Defined.

(** ** Of the two runs *)

Module RunFacts.

Import RunnerAggregate RunnerRun.

Section Loop.

Variable float_of_text : string -> option float.
Variable load_queries : string -> list answered_query.

Lemma benchmark_queries_length items qs :
  benchmark_queries float_of_text items = Ok qs ->
  List.length qs = List.length items.
Proof.
  revert qs. induction items as [ | [q [[llm rag] rce]] rest IH ]; intros qs;
    cbn [benchmark_queries].
  - now intros [= <-].
  - destruct (Runner.benchmark_query float_of_text q llm rag rce); cbn [bind];
      [ | discriminate ].
    destruct (benchmark_queries float_of_text rest) as [ others | e ]; cbn [bind];
      [ | discriminate ].
    intros [= <-]. cbn [List.length]. now rewrite (IH others eq_refl).
Qed.

Lemma benchmark_query_raises q llm rag rce e :
  Runner.benchmark_query float_of_text q llm rag rce = Raise e -> e = ValueError.
Proof.
  intros Hq.
  destruct (Runner.query_tolerance float_of_text q) as [ tol | e0 ] eqn:Htol.
  - destruct (CallFacts.benchmark_query_shape float_of_text q llm rag rce tol Htol)
      as [ca [cb [cc [_ [_ [_ Hshape]]]]]]. congruence.
  - unfold Runner.benchmark_query in Hq. rewrite Htol in Hq. cbn [bind] in Hq.
    injection Hq as <-.
    now apply (proj1 (CallFacts.query_tolerance_raises float_of_text q e0)) in Htol.
Qed.

Lemma benchmark_queries_raises items e :
  benchmark_queries float_of_text items = Raise e -> e = ValueError.
Proof.
  induction items as [ | [q [[llm rag] rce]] rest IH ]; cbn [benchmark_queries];
    [ discriminate | ].
  destruct (Runner.benchmark_query float_of_text q llm rag rce) as [ qr | e0 ] eqn:Hq;
    cbn [bind].
  - destruct (benchmark_queries float_of_text rest) as [ others | e1 ]; cbn [bind];
      [ discriminate | ].
    intros [= <-]. now apply IH.
  - intros [= <-]. exact (benchmark_query_raises _ _ _ _ _ Hq).
Qed.

(** What [benchmark_task_family] returns on a list of loaded queries. *)
Lemma benchmark_task_family_cases items :
  (items = [] /\ benchmark_task_family float_of_text items = Ok None)
  \/ (exists fd,
        items <> []
        /\ benchmark_task_family float_of_text items = Ok (Some fd)
        /\ family_recorded (List.length items) fd)
  \/ benchmark_task_family float_of_text items = Raise ValueError.
Proof.
  destruct items as [ | item rest ]; [ now left | right ].
  destruct (benchmark_task_family float_of_text (item :: rest)) as [ [fd | ] | e ]
    eqn:Hfam.
  - left. exists fd. split; [ discriminate | ]. split; [ reflexivity | ].
    destruct (Aggregate.benchmark_task_family_output float_of_text _ _ Hfam)
      as [Hacc Hone].
    unfold benchmark_task_family in Hfam.
    destruct (benchmark_queries float_of_text (item :: rest)) as [ qs | e ] eqn:Hqs;
      cbn [bind] in Hfam; [ | discriminate ].
    injection Hfam as <-. cbn [total_queries queries accuracy] in *.
    pose proof (benchmark_queries_length _ _ Hqs) as Hlen.
    unfold family_recorded. cbn [total_queries queries accuracy].
    repeat split; try assumption; try reflexivity.
    cbn [List.length]. lia.
  - exfalso. unfold benchmark_task_family in Hfam.
    destruct (benchmark_queries float_of_text (item :: rest)); cbn [bind] in Hfam;
      discriminate.
  - right. f_equal. unfold benchmark_task_family in Hfam.
    destruct (benchmark_queries float_of_text (item :: rest)) as [ qs | e0 ] eqn:Hqs;
      cbn [bind] in Hfam; [ discriminate | ].
    injection Hfam as <-. exact (benchmark_queries_raises _ _ Hqs).
Qed.

Lemma family_insert_new {A : Type} (name : string) (v : A) (d : by_family A) :
  family_lookup name d = None -> family_insert name v d = d ++ [(name, v)].
Proof.
  induction d as [ | [k w] rest IH ]; cbn [family_lookup family_insert app];
    [ reflexivity | ].
  destruct (String.eqb k name); [ discriminate | ].
  intros H. now rewrite (IH H).
Qed.

Lemma family_lookup_app_other {A : Type} (name other : string) (v : A)
    (d : by_family A) :
  other <> name ->
  family_lookup name (d ++ [(other, v)]) = family_lookup name d.
Proof.
  intros Hne. induction d as [ | [k w] rest IH ]; cbn [family_lookup app].
  - apply String.eqb_neq in Hne. now rewrite Hne.
  - destruct (String.eqb k name); [ reflexivity | exact IH ].
Qed.

(** The families with queries among [names]. *)
Lemma run_families_spec (names : list string) :
  NoDup names ->
  forall results res,
    (forall n, In n names -> family_lookup n (task_families results) = None) ->
    run_families float_of_text load_queries names results = Ok res ->
    exists recorded,
      task_families res = task_families results ++ recorded
      /\ map fst recorded
         = filter (fun n => negb (Nat.eqb (List.length (load_queries n)) 0)) names
      /\ (forall name fd, In (name, fd) recorded ->
            family_recorded (List.length (load_queries name)) fd)
      /\ meta_total_queries res
         = (meta_total_queries results
            + family_sum (fun fd => List.length (queries fd)) recorded)%nat.
Proof.
  induction 1 as [ | name rest Hnotin Hnodup IH ]; intros results res Hfresh;
    cbn [run_families].
  - intros [= <-]. exists []. rewrite app_nil_r. cbn.
    repeat split; try lia; try contradiction.
  - destruct (benchmark_task_family_cases (load_queries name))
      as [[Hempty ->] | [[fd [Hne [-> Hfd]]] | ->]]; cbn [bind];
      [ | | discriminate ].
    + intros Hrun.
      destruct (IH results res (fun n Hn => Hfresh n (or_intror Hn)) Hrun)
        as [recorded [Htf [Hnames [Hgood Hmeta]]]].
      exists recorded.
      split; [ exact Htf | split; [ | split; [ exact Hgood | exact Hmeta ] ] ].
      cbn [filter]. now rewrite Hempty.
    + intros Hrun.
      rewrite (family_insert_new name fd _ (Hfresh name (or_introl eq_refl))) in Hrun.
      apply IH in Hrun.
      * destruct Hrun as [recorded [Htf [Hnames [Hgood Hmeta]]]].
        cbn [task_families meta_total_queries] in Htf, Hmeta.
        exists ((name, fd) :: recorded). split; [ | split; [ | split ] ].
        -- rewrite Htf, <- app_assoc. reflexivity.
        -- cbn [map fst filter].
           destruct (load_queries name) as [ | item items ]; [ now elim Hne | ].
           cbn [List.length Nat.eqb negb]. now rewrite Hnames.
        -- intros n fd' [[= <- <-] | Hin]; [ exact Hfd | now apply Hgood ].
        -- rewrite Hmeta. unfold family_sum. cbn [map snd].
           rewrite PoolFacts.sum_cons.
           destruct Hfd as [Htot [Hlen _]]. lia.
      * intros n Hn. cbn [task_families].
        rewrite family_lookup_app_other.
        -- apply Hfresh. now right.
        -- intros ->. contradiction.
Qed.

End Loop.

Lemma task_families_distinct : NoDup TASK_FAMILIES.
Proof.
  unfold TASK_FAMILIES. repeat constructor; cbn; intuition discriminate.
Qed.

End RunFacts.

Module AnalysisFacts.

Local Open Scope R_scope.


Lemma asin_sqrt_increasing (p q : R) :
  0 <= p -> p < q -> q <= 1 -> asin (sqrt p) < asin (sqrt q).
Proof.
  intros Hp Hpq Hq.
  destruct (asin_bound (sqrt p)), (asin_bound (sqrt q)).
  apply sin_increasing_0; try assumption.
  rewrite !sin_asin by (apply EffectSize.sqrt_unit_interval; lra).
  apply sqrt_lt_1_alt. lra.
Qed.

Lemma effect_sign (p q : R) :
  0 <= p <= 1 -> 0 <= q <= 1 ->
  (0 < 2 * asin (sqrt p) - 2 * asin (sqrt q) <-> q < p)
  /\ (2 * asin (sqrt p) - 2 * asin (sqrt q) = 0 <-> p = q).
Proof.
  intros Hp Hq.
  destruct (Rtotal_order p q) as [ Hlt | [ -> | Hgt ] ].
  - pose proof (asin_sqrt_increasing p q (proj1 Hp) Hlt (proj2 Hq)).
    split; split; intros; lra.
  - split; split; intros; lra.
  - pose proof (asin_sqrt_increasing q p (proj1 Hq) Hgt (proj2 Hp)).
    split; split; intros; lra.
Qed.

Lemma Q2R_unit_interval (a : Q) : in_unit_interval a -> 0 <= Q2R a <= 1.
Proof.
  intros [Hlo Hhi]. apply Qreals.Qle_Rle in Hlo, Hhi.
  replace (Q2R 0) with 0 in Hlo by (unfold Q2R; cbn; lra).
  replace (Q2R 1) with 1 in Hhi by (unfold Q2R; cbn; lra).
  split; assumption.
Qed.

Lemma Qgtb_Q2R (a b : Q) : Qgtb a b = true <-> Q2R b < Q2R a.
Proof.
  rewrite Aggregate.Qgtb_lt. split.
  - apply Qreals.Qlt_Rlt.
  - apply Qreals.Rlt_Qlt.
Qed.

(** On the accuracies [compute_overall_accuracy] gives, [compute_effect_sizes]
    has its two values. *)
Lemma effect_sizes_of_overall (tf : by_family family_data) :
  let overall := Analyzer.compute_overall_accuracy tf in
  let rce := Q2R (ae_accuracy (overall RCE_LLM)) in
  let llm := Q2R (ae_accuracy (overall LLM)) in
  let rag := Q2R (ae_accuracy (overall LLM_RAG)) in
  (0 <= rce <= 1) /\ (0 <= llm <= 1) /\ (0 <= rag <= 1)
  /\ Analyzer.compute_effect_sizes overall
     = Ok {| RCE_vs_LLM :=
               {| cohens_h_value := 2 * asin (sqrt rce) - 2 * asin (sqrt llm);
                  interpretation :=
                    Analyzer._interpret_cohens_h
                      (2 * asin (sqrt rce) - 2 * asin (sqrt llm)) |};
             RCE_vs_RAG :=
               {| cohens_h_value := 2 * asin (sqrt rce) - 2 * asin (sqrt rag);
                  interpretation :=
                    Analyzer._interpret_cohens_h
                      (2 * asin (sqrt rce) - 2 * asin (sqrt rag)) |} |}.
Proof.
  intros overall rce llm rag.
  assert (Hrce : 0 <= rce <= 1)
    by (apply Q2R_unit_interval, (Aggregate.overall_accuracy_spec tf RCE_LLM)).
  assert (Hllm : 0 <= llm <= 1)
    by (apply Q2R_unit_interval, (Aggregate.overall_accuracy_spec tf LLM)).
  assert (Hrag : 0 <= rag <= 1)
    by (apply Q2R_unit_interval, (Aggregate.overall_accuracy_spec tf LLM_RAG)).
  repeat split; try apply Hrce; try apply Hllm; try apply Hrag.
  unfold Analyzer.compute_effect_sizes.
  fold overall. fold rce. fold llm. fold rag.
  rewrite !EffectSize.cohens_h_in_range by assumption.
  reflexivity.
Qed.

Lemma run_on_results (res : benchmark_results) :
  exists a, AnalyzerRun.run (Some res) = Ok (Some a).
Proof.
  unfold AnalyzerRun.run.
  destruct (effect_sizes_of_overall (task_families res)) as [_ [_ [_ ->]]].
  cbn [bind]. eexists. reflexivity.
Qed.

Lemma interpret_cases (h : R) :
  (Rabs h < 2/10 /\ Analyzer._interpret_cohens_h h = "negligible"%string)
  \/ (2/10 <= Rabs h < 5/10 /\ Analyzer._interpret_cohens_h h = "small"%string)
  \/ (5/10 <= Rabs h < 8/10 /\ Analyzer._interpret_cohens_h h = "medium"%string)
  \/ (8/10 <= Rabs h /\ Analyzer._interpret_cohens_h h = "large"%string).
Proof.
  unfold Analyzer._interpret_cohens_h.
  destruct (Rlt_dec (Rabs h) (2/10)); [ left; now split | ].
  destruct (Rlt_dec (Rabs h) (5/10)); [ right; left; split; [ lra | reflexivity ] | ].
  destruct (Rlt_dec (Rabs h) (8/10));
    [ right; right; left; split; [ lra | reflexivity ] | ].
  right; right; right. split; [ lra | reflexivity ].
Qed.

Local Close Scope R_scope.
Local Open Scope Q_scope.

Lemma improvement_sign (a b : Q) :
  0 < b -> (0 < (a - b) / b * 100 <-> b < a).
Proof.
  intros Hb. pose proof (Qinv_lt_0_compat b Hb) as Hinv.
  unfold Qdiv. generalize dependent (/ b). intros x Hx. split; intros H; Lqa.nra.
Qed.

Lemma Qgtb_max (a b c : Q) :
  Qgtb a (Qmax b c) = true <-> b < a /\ c < a.
Proof.
  rewrite Aggregate.Qgtb_lt. apply Q.max_lub_lt_iff.
Qed.

Lemma forallb_count (l : list bool) :
  (List.length (filter (fun b => b) l) <= List.length l)%nat
  /\ (forallb (fun b => b) l = true
      <-> List.length (filter (fun b => b) l) = List.length l).
Proof.
  induction l as [ | [ | ] rest [IHle IHiff] ]; cbn [filter forallb List.length].
  - split; [ lia | split; reflexivity ].
  - split; [ lia | ]. cbn [andb]. rewrite IHiff. split; lia.
  - split; [ lia | ]. split; [ discriminate | lia ].
Qed.

End AnalysisFacts.



(** X11.  On the results of a run of the runner, the analysis counts every
    query once for every system: each overall [total] is the
    [total_queries] of the metadata. *)
Theorem analysis_total_is_metadata_total
    (float_of_text : string -> option float)
    (load_queries : string -> list RunnerAggregate.answered_query)
    (res : benchmark_results) (system : system) :
  RunnerRun.run float_of_text load_queries = Ok res ->
  ae_total (Analyzer.compute_overall_accuracy (task_families res) system)
  = meta_total_queries res.
Proof.
  intros Hrun.
  destruct (RunFacts.run_families_spec float_of_text load_queries
              RunnerRun.TASK_FAMILIES RunFacts.task_families_distinct
              {| meta_total_queries := 0; task_families := [] |} res
              (fun n _ => eq_refl) Hrun)
    as [recorded [Htf [_ [Hgood Hmeta]]]].
  cbn [task_families meta_total_queries app] in Htf, Hmeta.
  rewrite Hmeta, Htf, (proj2 (PoolFacts.overall_counters system recorded)).
  apply PoolFacts.family_sum_ext. intros name fd Hin.
  apply PoolFacts.responses_sum.
  destruct (Hgood name fd Hin) as [_ [_ [_ [_ Hone]]]]. exact Hone.
Qed.

Lemma analysis_total_is_metadata_total_witness :
  exists res,
    RunnerRun.run (fun _ => None)
      (fun n => if String.eqb n "f3_arithmetic"
                then [ (Sample.flagged_exact,
                        (Some "about 103"%string, None, Some " 100"%string)) ]
                else []) = Ok res
    /\ ae_total (Analyzer.compute_overall_accuracy (task_families res) RCE_LLM)
       = meta_total_queries res.
Proof.
  eexists. split; [ reflexivity | ].
  exact (analysis_total_is_metadata_total (fun _ => None)
           (fun n => if String.eqb n "f3_arithmetic"
                     then [ (Sample.flagged_exact,
                             (Some "about 103"%string, None, Some " 100"%string)) ]
                     else []) _ RCE_LLM eq_refl).
Defined.


(** X13.  In the analysis of any results, hypothesis H1 is reported as
    supported exactly when the effect size of RCE-LLM against LLM is
    positive, and H2 exactly when the one against LLM+RAG is. *)
Theorem supported_means_positive_effect
    (results : benchmark_results) (a : analysis) :
  AnalyzerRun.run (Some results) = Ok (Some a) ->
  (H1_supported (an_hypotheses_validation a) = true
   <-> (0 < cohens_h_value (RCE_vs_LLM (an_effect_sizes a)))%R)
  /\ (H2_supported (an_hypotheses_validation a) = true
      <-> (0 < cohens_h_value (RCE_vs_RAG (an_effect_sizes a)))%R).
Proof.
  unfold AnalyzerRun.run.
  destruct (AnalysisFacts.effect_sizes_of_overall (task_families results))
    as [Hrce [Hllm [Hrag ->]]]. cbn [bind].
  intros [= <-].
  cbn [an_hypotheses_validation an_effect_sizes RCE_vs_LLM RCE_vs_RAG cohens_h_value].
  unfold Analyzer.validate_hypotheses. cbn [H1_supported H2_supported].
  rewrite !AnalysisFacts.Qgtb_Q2R.
  rewrite (proj1 (AnalysisFacts.effect_sign _ _ Hrce Hllm)).
  rewrite (proj1 (AnalysisFacts.effect_sign _ _ Hrce Hrag)).
  split; reflexivity.
Qed.

Lemma supported_means_positive_effect_witness :
  exists a,
    AnalyzerRun.run
      (Some {| meta_total_queries := 2; task_families := Sample.task_families |})
    = Ok (Some a)
    /\ (H1_supported (an_hypotheses_validation a) = true
        <-> (0 < cohens_h_value (RCE_vs_LLM (an_effect_sizes a)))%R).
Proof.
  destruct (AnalysisFacts.run_on_results
              {| meta_total_queries := 2; task_families := Sample.task_families |})
    as [a Hrun].
  exists a. split; [ exact Hrun | ].
  exact (proj1 (supported_means_positive_effect _ a Hrun)).
Defined.

(** ** Of the effect size and the hypotheses *)



(** X15.  The label of an effect size depends on its absolute value alone,
    with the bounds 0.2, 0.5 and 0.8 belonging to the bucket above them; so
    exchanging the two systems compared keeps the label. *)
Theorem interpretation_is_symmetric :
  (forall h : R,
     Analyzer._interpret_cohens_h (- h) = Analyzer._interpret_cohens_h h
     /\ (Analyzer._interpret_cohens_h h = "negligible"%string
         <-> (Rabs h < 2/10)%R)
     /\ (Analyzer._interpret_cohens_h h = "small"%string
         <-> (2/10 <= Rabs h < 5/10)%R)
     /\ (Analyzer._interpret_cohens_h h = "medium"%string
         <-> (5/10 <= Rabs h < 8/10)%R)
     /\ (Analyzer._interpret_cohens_h h = "large"%string
         <-> (8/10 <= Rabs h)%R))
  /\ (forall p q : R,
        (0 <= p <= 1)%R -> (0 <= q <= 1)%R ->
        exists h h',
          Analyzer.cohens_h p q = Ok h /\ Analyzer.cohens_h q p = Ok h'
          /\ Analyzer._interpret_cohens_h h = Analyzer._interpret_cohens_h h').
Proof.
  assert (Hsym : forall h : R,
            Analyzer._interpret_cohens_h (- h) = Analyzer._interpret_cohens_h h).
  { intros h. unfold Analyzer._interpret_cohens_h. now rewrite Rabs_Ropp. }
  split.
  - intros h. split; [ apply Hsym | ].
    destruct (AnalysisFacts.interpret_cases h)
      as [[Hb ->] | [[Hb ->] | [[Hb ->] | [Hb ->]]]];
      repeat split; intros; try discriminate; try reflexivity; try lra.
  - intros p q Hp Hq.
    exists (2 * asin (sqrt p) - 2 * asin (sqrt q))%R,
           (2 * asin (sqrt q) - 2 * asin (sqrt p))%R.
    rewrite !EffectSize.cohens_h_in_range by assumption.
    split; [ reflexivity | ]. split; [ reflexivity | ].
    rewrite <- Hsym. f_equal. ring.
Qed.

Lemma interpretation_is_symmetric_witness :
  exists h h',
    Analyzer.cohens_h (3 / 4) (1 / 2) = Ok h
    /\ Analyzer.cohens_h (1 / 2) (3 / 4) = Ok h'
    /\ Analyzer._interpret_cohens_h h = Analyzer._interpret_cohens_h h'.
Proof.
  apply (proj2 interpretation_is_symmetric (3 / 4)%R (1 / 2)%R); lra.
Defined.

(** X16.  [validate_hypotheses] counts the families of the table and those
    where RCE-LLM is strictly above both baselines; the count of improved
    families never exceeds the total, and H3 is supported exactly when the
    two are equal. *)
Theorem improved_families_are_counted
    (overall_accuracy : per_system accuracy_entry)
    (task_family_accuracy : by_family (per_system accuracy_entry)) :
  let hv := Analyzer.validate_hypotheses overall_accuracy task_family_accuracy in
  H3_total_families hv = List.length task_family_accuracy
  /\ H3_families_improved hv
     = List.length (filter (fun family => Analyzer.family_improved (snd family))
                      task_family_accuracy)
  /\ (H3_families_improved hv <= H3_total_families hv)%nat
  /\ (H3_supported hv = true <-> H3_families_improved hv = H3_total_families hv).
Proof.
  cbn zeta. unfold Analyzer.validate_hypotheses.
  cbn [H3_total_families H3_families_improved H3_supported].
  destruct (AnalysisFacts.forallb_count
              (map (fun family => Analyzer.family_improved (snd family))
                 task_family_accuracy)) as [Hle Hiff].
  split; [ apply length_map | ]. split; [ | split; assumption ].
  clear. induction task_family_accuracy as [ | family rest IH ]; [ reflexivity | ].
  cbn [map filter]. destruct (Analyzer.family_improved (snd family));
    cbn [List.length]; now rewrite IH.
Qed.

(** X17.  H4 is about the family "f5_factual" alone: without it in the
    table H4 is not supported; with it H4 is supported exactly when RCE-LLM
    is strictly above both baselines there.  So a supported H3 on a table
    that holds "f5_factual" makes H4 supported. *)
Theorem factual_hypothesis_follows_f5
    (overall_accuracy : per_system accuracy_entry)
    (task_family_accuracy : by_family (per_system accuracy_entry)) :
  let hv := Analyzer.validate_hypotheses overall_accuracy task_family_accuracy in
  (family_lookup "f5_factual"%string task_family_accuracy = None ->
   H4_supported hv = false)
  /\ (forall f5,
        family_lookup "f5_factual"%string task_family_accuracy = Some f5 ->
        (H4_supported hv = true
         <-> ae_accuracy (f5 LLM) < ae_accuracy (f5 RCE_LLM)
             /\ ae_accuracy (f5 LLM_RAG) < ae_accuracy (f5 RCE_LLM))
        /\ (H3_supported hv = true -> H4_supported hv = true)).
Proof.
  cbn zeta. unfold Analyzer.validate_hypotheses.
  cbn [H4_supported H3_supported]. split.
  - intros ->. reflexivity.
  - intros f5 Hf5. rewrite Hf5.
    assert (Hiff : Qgtb (ae_accuracy (f5 RCE_LLM))
                     (Qmax (ae_accuracy (f5 LLM)) (ae_accuracy (f5 LLM_RAG))) = true
                   <-> ae_accuracy (f5 LLM) < ae_accuracy (f5 RCE_LLM)
                       /\ ae_accuracy (f5 LLM_RAG) < ae_accuracy (f5 RCE_LLM))
      by apply AnalysisFacts.Qgtb_max.
    split; [ exact Hiff | ].
    intros Hall. apply Hiff. rewrite forallb_forall in Hall.
    assert (Himp : Analyzer.family_improved f5 = true).
    { apply Hall. apply in_map_iff. exists ("f5_factual"%string, f5).
      split; [ reflexivity | ]. clear - Hf5.
      induction task_family_accuracy as [ | [k v] rest IH ];
        cbn [family_lookup] in Hf5; [ discriminate | ].
      destruct (String.eqb k "f5_factual") eqn:Hk.
      - apply String.eqb_eq in Hk. injection Hf5 as ->. subst. now left.
      - right. now apply IH. }
    unfold Analyzer.family_improved in Himp.
    apply andb_true_iff in Himp as [H1 H2].
    split; now apply Aggregate.Qgtb_lt.
Qed.

Lemma factual_hypothesis_follows_f5_witness :
  H4_supported
    (Analyzer.validate_hypotheses Demo.overall_accuracy Demo.task_family_accuracy)
  = true.
Proof.
  apply (proj2 (factual_hypothesis_follows_f5 Demo.overall_accuracy
                  Demo.task_family_accuracy)
           (Demo.table (Demo.entry 1 3 (333 # 1000)) (Demo.entry 2 3 (667 # 1000))
              (Demo.entry 3 3 (1000 # 1000)))
           eq_refl).
  reflexivity.
Defined.

(** X18.  The improvement percentage of H1 is 0 when the accuracy of LLM is
    0, even if H1 is supported; with a positive accuracy of LLM it is
    positive exactly when H1 is supported.  The same holds of H2 and
    LLM+RAG. *)
Theorem improvement_percentage_sign
    (overall_accuracy : per_system accuracy_entry)
    (task_family_accuracy : by_family (per_system accuracy_entry)) :
  let hv := Analyzer.validate_hypotheses overall_accuracy task_family_accuracy in
  (ae_accuracy (overall_accuracy LLM) <= 0 -> H1_improvement_percentage hv = 0)
  /\ (0 < ae_accuracy (overall_accuracy LLM) ->
      (0 < H1_improvement_percentage hv <-> H1_supported hv = true))
  /\ (ae_accuracy (overall_accuracy LLM_RAG) <= 0 -> H2_improvement_percentage hv = 0)
  /\ (0 < ae_accuracy (overall_accuracy LLM_RAG) ->
      (0 < H2_improvement_percentage hv <-> H2_supported hv = true)).
Proof.
  cbn zeta. unfold Analyzer.validate_hypotheses.
  cbn [H1_improvement_percentage H1_supported H2_improvement_percentage H2_supported].
  assert (Hzero : forall a b : Q, b <= 0 -> Analyzer.improvement_percentage a b = 0).
  { intros a b Hb. unfold Analyzer.improvement_percentage.
    destruct (Qgtb b 0) eqn:Hgt; [ | reflexivity ].
    apply Aggregate.Qgtb_lt in Hgt. exfalso. exact (Qlt_not_le _ _ Hgt Hb). }
  assert (Hpos : forall a b : Q, 0 < b ->
            (0 < Analyzer.improvement_percentage a b <-> Qgtb a b = true)).
  { intros a b Hb. unfold Analyzer.improvement_percentage.
    rewrite (proj2 (Aggregate.Qgtb_lt b 0) Hb), Aggregate.Qgtb_lt.
    now apply AnalysisFacts.improvement_sign. }
  repeat split; try apply Hzero; try apply Hpos; assumption.
Qed.

Lemma improvement_percentage_sign_witness :
  H1_improvement_percentage
    (Analyzer.validate_hypotheses (accuracies 0 (1 # 2) (3 # 4)) []) = 0
  /\ (0 < H2_improvement_percentage
            (Analyzer.validate_hypotheses (accuracies 0 (1 # 2) (3 # 4)) [])
      <-> H2_supported
            (Analyzer.validate_hypotheses (accuracies 0 (1 # 2) (3 # 4)) []) = true).
Proof.
  pose proof (improvement_percentage_sign (accuracies 0 (1 # 2) (3 # 4)) [])
    as [Hzero [_ [_ Hpos]]].
  split; [ apply Hzero; discriminate | apply Hpos; reflexivity ].
Defined.

(** ** Of the extraction of numbers and of the loop over the queries *)

(** X19.  Every text the pattern of [validate_response] extracts is accepted
    by [float]: the conversions inside the [try] block never raise
    [ValueError]. *)
Theorem extracted_numbers_convert (s tok : string) :
  In tok (PyStr.findall s) -> exists v, PyFloat.float_of_numeral tok = Ok v.
Proof.
  exact (Scoring.findall_converts tok s).
Qed.

Lemma extracted_numbers_convert_witness :
  exists v, PyFloat.float_of_numeral "-12." = Ok v.
Proof.
  apply (extracted_numbers_convert "a-b-12.x" "-12."). left. reflexivity.
Defined.

(** X20.  A response of white space only is not the empty response: it
    passes the first guard, and is correct exactly when the expected answer
    is blank as well. *)
Theorem blank_response_matches_blank_answer
    (r : string) (expected : py_value) (tol : float) :
  r <> ""%string -> normalized r = ""%string ->
  Runner.validate_response (Some r) expected tol
  = Ok (String.eqb (normalized (str expected)) "").
Proof.
  intros Hr Hblank.
  rewrite Scoring.validate_response_nonempty by exact Hr.
  rewrite Hblank. destruct (normalized (str expected)) as [ | c rest ] eqn:He.
  - reflexivity.
  - reflexivity.
Qed.

Lemma blank_response_matches_blank_answer_witness :
  Runner.validate_response (Some "  "%string) (PyStr "") 0.05%float = Ok true
  /\ Runner.validate_response (Some "  "%string) (PyStr "Paris") 0.05%float = Ok false.
Proof.
  split.
  - apply (blank_response_matches_blank_answer "  " (PyStr "") 0.05%float).
    + discriminate.
    + reflexivity.
  - apply (blank_response_matches_blank_answer "  " (PyStr "Paris") 0.05%float).
    + discriminate.
    + reflexivity.
Defined.

(** X21.  The loop of [benchmark_task_family] drops and reorders nothing:
    when it ends, there is one scored query per loaded query, in the same
    order, with the identifier, the expected answer and the three responses
    of that query. *)
Theorem scored_queries_follow_the_loaded_ones
    (float_of_text : string -> option float)
    (items : list RunnerAggregate.answered_query) (qs : list query_result) :
  RunnerAggregate.benchmark_queries float_of_text items = Ok qs ->
  map query_id qs = map (fun item => q_id (fst item)) items
  /\ map expected_answer qs = map (fun item => q_expected_answer (fst item)) items
  /\ map (fun qr => map response (systems qr)) qs
     = map (fun item => let '(llm, rag, rce) := snd item in [llm; rag; rce]) items.
Proof.
  revert qs. induction items as [ | [q [[llm rag] rce]] rest IH ]; intros qs;
    cbn [RunnerAggregate.benchmark_queries].
  - intros [= <-]. repeat split.
  - destruct (Runner.query_tolerance float_of_text q) as [ tol | e ] eqn:Htol.
    2: { unfold Runner.benchmark_query. rewrite Htol. discriminate. }
    destruct (CallFacts.benchmark_query_shape float_of_text q llm rag rce tol Htol)
      as [ca [cb [cc [_ [_ [_ ->]]]]]]. cbn [bind].
    destruct (RunnerAggregate.benchmark_queries float_of_text rest) as [ others | e ];
      cbn [bind]; [ | discriminate ].
    intros [= <-]. destruct (IH others eq_refl) as [Hid [Hexp Hresp]].
    cbn [map query_id expected_answer systems response fst snd].
    rewrite Hid, Hexp, Hresp. repeat split.
Qed.

Lemma scored_queries_follow_the_loaded_ones_witness :
  exists qs,
    RunnerAggregate.benchmark_queries (fun _ => None)
      [ (Sample.flagged_exact, (Some "about 103"%string, None, Some " 100"%string)) ]
    = Ok qs
    /\ map query_id qs = [ "f3_001"%string ].
Proof.
  eexists. split; [ reflexivity | ].
  exact (proj1 (scored_queries_follow_the_loaded_ones (fun _ => None)
                  [ (Sample.flagged_exact,
                     (Some "about 103"%string, None, Some " 100"%string)) ]
                  _ eq_refl)).
Defined.

(** X22.  Each of the three query functions reports an error text exactly
    when it reports no success. *)
Theorem error_text_iff_no_success (call : call_result) :
  (exists o, call = RunnerCalls.query_llm_baseline o)
  \/ (exists o, call = RunnerCalls.query_llm_rag_baseline o)
  \/ (exists o, call = RunnerCalls.query_rce_llm o) ->
  (cr_success call = true <-> cr_error call = None).
Proof.
  intros [[o ->] | [[o ->] | [o ->]]].
  - destruct o as [ out rc err | message ]; cbn;
      [ destruct (rc =? 0)%Z | ]; split; intros; try discriminate;
      try reflexivity.
  - destruct o as [ out rc err | message ]; cbn;
      [ destruct (rc =? 0)%Z | ]; split; intros; try discriminate;
      try reflexivity.
  - destruct o as [ status text [ answer | message ] | message ]; cbn;
      try destruct (status =? 200)%Z; cbn; split; intros;
      try discriminate; try reflexivity.
Qed.

Lemma error_text_iff_no_success_witness :
  cr_success (RunnerCalls.query_rce_llm (Replied 200 "{}" (JsonObject None))) = true
  <-> cr_error (RunnerCalls.query_rce_llm (Replied 200 "{}" (JsonObject None))) = None.
Proof.
  apply (error_text_iff_no_success
           (RunnerCalls.query_rce_llm (Replied 200 "{}" (JsonObject None)))).
  right. right. eexists. reflexivity.
Defined.
